(** * The Vega / Vega-Lite mime renderer of [packages/vega/src/index.ts]

    A shallow embedding of the renderer factory, of the rendered widget
    and of the private helper [updateVegaLiteDefaults], together with the
    properties of the natural-language specification that concern them.

    JavaScript objects are references into a store: the embedding threads
    an explicit heap, so that sharing between the argument and the result
    of the default merge, and the absence of writes to existing objects,
    are visible in the statements. *)

From Stdlib Require Import ZArith.
From Stdlib.Floats Require Import PrimFloat.
From stdpp Require Import gmap strings list fin_maps pretty.

Local Open Scope string_scope.
Local Open Scope Z_scope.

(** ** JSON values and the object store *)

Module Js.

(** Addresses of heap-allocated objects and arrays. *)
Abbreviation loc := positive.

(** Numbers are IEEE 754 binary64 values, as in the language. *)
Abbreviation number := PrimFloat.float.

(** A runtime value that JSON data can hold, plus [undefined], which is
    what reading a missing property yields. *)
Inductive value : Type :=
  | VUndefined
  | VNull
  | VBool (b : bool)
  | VNum (n : number)
  | VStr (s : string)
  | VRef (l : loc).

(** What lives at an address: a plain object (own enumerable data
    properties, as produced by [JSON.parse] or an object literal) or an
    array. *)
Inductive cell : Type :=
  | CObj (props : gmap string value)
  | CArr (elems : list value).

Abbreviation heap := (gmap loc cell).

(** What a computation can throw.  [DanglingRef] belongs to the store
    model, not to the language: it is the outcome of using a reference to
    no object, which no JavaScript value is. *)
Inductive exn : Type :=
  | TypeError
  | DanglingRef.

Inductive result (A : Type) : Type :=
  | Ok (a : A)
  | Throw (e : exn).
Arguments Ok {A} a.
Arguments Throw {A} e.

(** Computations read the store, may allocate in it, and may throw. *)
Definition M (A : Type) : Type := heap → heap * result A.

Definition ret {A} (a : A) : M A := λ h, (h, Ok a).
Definition throw {A} (e : exn) : M A := λ h, (h, Throw e).
Definition bind {A B} (m : M A) (f : A → M B) : M B :=
  λ h, match m h with
       | (h', Ok a) => f a h'
       | (h', Throw e) => (h', Throw e)
       end.

Declare Scope js_scope.
Notation "x ← m ; k" := (bind m (λ x, k))
  (at level 20, m at level 100, k at level 200, only parsing) : js_scope.
Delimit Scope js_scope with js.
Bind Scope js_scope with M.
Local Open Scope js_scope.

(** Allocation of a new object at an unused address. *)
Definition alloc (c : cell) : M value :=
  λ h, let l := fresh (dom h) in (<[l := c]> h, Ok (VRef l)).

(** The canonical array-index property name of [i]. *)
Definition index_key (i : nat) : string := pretty i.

(** The own enumerable properties of an array (or of the characters of a
    string): index keys mapped to the elements. *)
Fixpoint indexed_from {A} (f : A → value) (i : nat) (l : list A)
  : gmap string value :=
  match l with
  | [] => ∅
  | x :: r => <[index_key i := f x]> (indexed_from f (S i) r)
  end.

Fixpoint chars (s : string) : list string :=
  match s with
  | EmptyString => []
  | String a r => String a EmptyString :: chars r
  end.

Definition array_props (elems : list value) : gmap string value :=
  indexed_from id 0%nat elems.

Definition string_props (s : string) : gmap string value :=
  indexed_from VStr 0%nat (chars s).

(** The number denoting a length (exact below 2^53). *)
Fixpoint of_nat (n : nat) : number :=
  match n with
  | O => 0%float
  | S p => (of_nat p + 1)%float
  end.

(** Own enumerable properties of a value, as copied by a spread element
    [...v] of an object literal: nothing for [undefined], [null],
    booleans and numbers; the indexed characters of a string; the own
    properties of an object or array. *)
Definition own_enumerable (v : value) : M (gmap string value) :=
  match v with
  | VUndefined | VNull | VBool _ | VNum _ => ret ∅
  | VStr s => ret (string_props s)
  | VRef l => λ h,
      match h !! l with
      | Some (CObj props) => (h, Ok props)
      | Some (CArr elems) => (h, Ok (array_props elems))
      | None => (h, Throw DanglingRef)
      end
  end.

(** Own properties, enumerable or not: arrays and strings also own
    [length]. *)
Definition has_own (own : gmap string value) (len : bool) (k : string)
  : bool :=
  bool_decide (is_Some (own !! k)) || (len && bool_decide (k = "length")).

(** The method call [v.hasOwnProperty(k)].  The method is looked up on
    the receiver first: an object that owns a property named
    [hasOwnProperty] shadows the inherited method with JSON data, which
    is not callable.  [undefined] and [null] have no properties. *)
Definition hasOwnProperty (v : value) (k : string) : M bool :=
  match v with
  | VUndefined | VNull => throw TypeError
  | VBool _ | VNum _ => ret false
  | VStr s => ret (has_own (string_props s) true k)
  | VRef l => λ h,
      match h !! l with
      | Some (CObj props) =>
          match props !! "hasOwnProperty" with
          | Some _ => (h, Throw TypeError)
          | None => (h, Ok (has_own props false k))
          end
      | Some (CArr elems) => (h, Ok (has_own (array_props elems) true k))
      | None => (h, Throw DanglingRef)
      end
  end.

(** The property read [v.k] (or [v[k]]) for a key [k] that no built-in
    prototype defines, which is the case of every key read by the
    program ([config], [cell] and MIME type strings): own properties
    only, [undefined] when missing. *)
Definition get_own (own : gmap string value) (len : option nat)
    (k : string) : value :=
  match own !! k, len with
  | Some v, _ => v
  | None, Some n => if bool_decide (k = "length") then VNum (of_nat n)
                    else VUndefined
  | None, None => VUndefined
  end.

Definition get_prop (v : value) (k : string) : M value :=
  match v with
  | VUndefined | VNull => throw TypeError
  | VBool _ | VNum _ => ret VUndefined
  | VStr s => ret (get_own (string_props s) (Some (String.length s)) k)
  | VRef l => λ h,
      match h !! l with
      | Some (CObj props) => (h, Ok (get_own props None k))
      | Some (CArr elems) =>
          (h, Ok (get_own (array_props elems) (Some (length elems)) k))
      | None => (h, Throw DanglingRef)
      end
  end.

(** Object literals.  The members are evaluated left to right; a later
    member overrides an earlier one with the same key. *)
Inductive member : Type :=
  | Prop_ (k : string) (e : M value)      (* "k": e *)
  | Spread (e : M value).                 (* ...e   *)

Fixpoint fill (ms : list member) (acc : gmap string value)
  : M (gmap string value) :=
  match ms with
  | [] => ret acc
  | Prop_ k e :: r => v ← e; fill r (<[k := v]> acc)
  | Spread e :: r => v ← e; own ← own_enumerable v; fill r (own ∪ acc)
  end.

Definition object (ms : list member) : M value :=
  props ← fill ms ∅; alloc (CObj props).

End Js.

(** ** The program *)

Module Vega.
Import Js.
Local Open Scope js_scope.

(** The CSS classes added to the widget. *)
Definition VEGA_COMMON_CLASS : string := "jp-RenderedVegaCommon".
Definition VEGA_CLASS : string := "jp-RenderedVega".
Definition VEGALITE_CLASS : string := "jp-RenderedVegaLite".

(** The MIME types for Vega and for Vega-Lite. *)
Definition VEGA_MIME_TYPE : string := "application/vnd.vega.v2+json".
Definition VEGALITE_MIME_TYPE : string := "application/vnd.vegalite.v1+json".

(** The part of [IRenderMime.IRendererOptions] the program reads. *)
Record IRendererOptions : Type := { mimeType : string }.

(** The part of [IRenderMime.IMimeModel] the program reads: the MIME
    bundle, from MIME type to payload.  Payloads are JSON values; objects
    and arrays among them live in the store. *)
Record IMimeModel : Type := { data : gmap string value }.

(** *** Namespace [Private] *)

Module Private.

(** The record written in the initialiser of [defaultCellConfig]. *)
Definition defaultCell : gmap string value :=
  {[ "width" := VNum 400%float; "height" := VNum (400 / 1.5)%float ]}.

(** Evaluation of the declaration [const defaultCellConfig = {...}] when
    the module is loaded; the constant is bound to the object it yields. *)
Definition load : M value :=
  object [ Prop_ "width" (ret (VNum 400%float));
           Prop_ "height" (ret (VNum (400 / 1.5)%float)) ].

Section WithDefaults.

(** The binding of the module-level constant. *)
Variable defaultCellConfig : value.

Definition updateVegaLiteDefaults (spec : value) : M value :=
  has_config ← hasOwnProperty spec "config";
  if (has_config : bool) then
    config ← get_prop spec "config";
    has_cell ← hasOwnProperty config "cell";
    if (has_cell : bool) then
      object
        [ Spread (object
            [ Prop_ "config" (object
                [ Spread (object
                    [ Prop_ "cell" (object
                        [ Spread (ret defaultCellConfig);
                          Spread (config ← get_prop spec "config";
                                  get_prop config "cell") ]) ]) ]);
              Spread (get_prop spec "config") ]);
          Spread (ret spec) ]
    else
      object
        [ Spread (object
            [ Prop_ "config" (object
                [ Spread (object
                    [ Prop_ "cell" (object
                        [ Spread (ret defaultCellConfig) ]) ]) ]);
              Spread (get_prop spec "config") ]);
          Spread (ret spec) ]
  else
    object
      [ Spread (object
          [ Prop_ "config" (object
              [ Prop_ "cell" (ret defaultCellConfig) ]) ]);
        Spread (ret spec) ].

End WithDefaults.

End Private.

(** *** Class [RenderedVega] *)

(** The DOM node that the [Widget] base class creates for a widget. *)
Inductive Node : Type := DomNode (id : nat).

Record RenderedVega : Type := {
  node : Node;
  classList : list string;
  _mimeType : string;
  _mode : string
}.

(** [Widget.addClass]: the class list is a token set. *)
Definition addClass (name : string) (classes : list string) : list string :=
  if bool_decide (name ∈ classes) then classes else classes ++ [name].

(** What [super()] leaves: the constructor of the base class, [Widget] of
    the package [@phosphor/widgets], which these sources import, creates
    the node of the widget and adds the class [p-Widget] to it. *)
Definition Widget_classes : list string := addClass "p-Widget" [].

(** The constructor; [n] is the node created by [super()]. *)
Definition constructor (n : Node) (options : IRendererOptions)
  : RenderedVega :=
  let classes := addClass VEGA_COMMON_CLASS Widget_classes in
  let mimeType := mimeType options in
  if String.eqb mimeType VEGA_MIME_TYPE then
    {| node := n; classList := addClass VEGA_CLASS classes;
       _mimeType := mimeType; _mode := "vega" |}
  else
    {| node := n; classList := addClass VEGALITE_CLASS classes;
       _mimeType := mimeType; _mode := "vega-lite" |}.

(** The argument [embedSpec] of the embedder. *)
Record EmbedSpec : Type := { mode : string; spec : value }.

(** Promises. A settled promise ignores later calls of its resolving
    functions; an exception escaping the executor rejects it. *)
Inductive promise : Type :=
  | Pending
  | Resolved (v : value)
  | Rejected (reason : value).

Definition resolve (v : value) (p : promise) : promise :=
  match p with Pending => Resolved v | _ => p end.

Definition reject (reason : value) (p : promise) : promise :=
  match p with Pending => Rejected reason | _ => p end.

(** The call [embed(this.node, embedSpec, callback)] made by the
    executor of the promise that [renderModel] returns.  The callback
    acts on that promise. *)
Record EmbedCall : Type := {
  target : Node;
  embedSpec : EmbedSpec;
  callback : value → value → promise → promise
}.

Section WithDefaults.

Variable defaultCellConfig : value.

(** The read [model.data[this._mimeType]] is the lookup of an own entry of
    the bundle.  It is the read of the language for every MIME type that
    is not the name of a member that the bundle inherits from
    [Object.prototype] ([toString], [constructor] and the like), the two
    registered types among them; for such a name, and a bundle without an
    own entry, the language finds the inherited member.  A view that the
    constructor puts in vega mode is bound to the Vega type; what is
    stated about a missing entry in vega-lite mode is stated for the
    Vega-Lite type. *)
Definition renderModel (this : RenderedVega) (model : IMimeModel)
  : M EmbedCall :=
  let data := get_own (data model) None (_mimeType this) in
  data ← (if String.eqb (_mode this) "vega-lite"
          then Private.updateVegaLiteDefaults defaultCellConfig data
          else ret data);
  let embedSpec := {| mode := _mode this; spec := data |} in
  ret {| target := node this;
         embedSpec := embedSpec;
         callback := λ error result, resolve VUndefined |}.

End WithDefaults.

(** What the embedder, a black box, can do to the promise: invoke the
    callback it was given, with any two arguments, or throw out of the
    executor. *)
Inductive embedder_event : Type :=
  | CallsBack (error result : value)
  | ThrowsFromExecutor (e : value).

Definition promise_step (c : EmbedCall) (p : promise) (ev : embedder_event)
  : promise :=
  match ev with
  | CallsBack error result => callback c error result p
  | ThrowsFromExecutor e => reject e p
  end.

(** The state of the returned promise after a run of the embedder. *)
Definition settle (c : EmbedCall) (evs : list embedder_event) : promise :=
  foldl (promise_step c) Pending evs.

(** *** Class [VegaRendererFactory] *)

Record VegaRendererFactory : Type := { mimeTypes : list string }.

(** The field initialiser, run by [new VegaRendererFactory()]. *)
Definition new_VegaRendererFactory : VegaRendererFactory :=
  {| mimeTypes := [VEGA_MIME_TYPE; VEGALITE_MIME_TYPE] |}.

(** [Array.prototype.indexOf] on an array of strings: the first index
    holding a strictly equal element, or -1. *)
Fixpoint indexOf_from (i : Z) (l : list string) (x : string) : Z :=
  match l with
  | [] => -1
  | y :: r => if String.eqb y x then i else indexOf_from (i + 1) r x
  end.

Definition indexOf (l : list string) (x : string) : Z := indexOf_from 0 l x.

Definition canCreateRenderer (this : VegaRendererFactory)
    (options : IRendererOptions) : bool :=
  negb (indexOf (mimeTypes this) (mimeType options) =? -1).

Definition createRenderer (this : VegaRendererFactory) (n : Node)
    (options : IRendererOptions) : RenderedVega :=
  constructor n options.

Definition wouldSanitize (this : VegaRendererFactory)
    (options : IRendererOptions) : bool :=
  false.

Definition rendererFactory : VegaRendererFactory := new_VegaRendererFactory.

End Vega.

(** ** Reading a store *)

Module Read.
Import Js.

(** The own property [k] of the plain object that [v] refers to. *)
Definition own (h : heap) (v : value) (k : string) : option value :=
  match v with
  | VRef l =>
      match h !! l with
      | Some (CObj props) => props !! k
      | _ => None
      end
  | _ => None
  end.

(** The property reached from [v] along a path of own keys. *)
Fixpoint path (h : heap) (v : value) (ks : list string) : option value :=
  match ks with
  | [] => Some v
  | k :: r => match own h v k with
              | Some w => path h w r
              | None => None
              end
  end.

(** The own keys of the plain object that [v] refers to. *)
Definition keys (h : heap) (v : value) : list string :=
  match v with
  | VRef l =>
      match h !! l with
      | Some (CObj props) => (map_to_list props).*1
      | _ => []
      end
  | _ => []
  end.

End Read.

(** ** Properties of stores and of computations *)

Module Store.
Import Js Vega.

(** A value that does not dangle: a reference refers to an object of the
    store. *)
Definition value_ok (h : heap) (v : value) : Prop :=
  match v with
  | VRef l => is_Some (h !! l)
  | _ => True
  end.

Definition cell_ok (h : heap) (c : cell) : Prop :=
  match c with
  | CObj props => map_Forall (λ _ v, value_ok h v) props
  | CArr elems => Forall (value_ok h) elems
  end.

(** A store without dangling references. *)
Definition closed (h : heap) : Prop := map_Forall (λ _ c, cell_ok h c) h.

#[export] Instance value_ok_dec h v : Decision (value_ok h v).
Proof. destruct v; apply _. Defined.

#[export] Instance cell_ok_dec h c : Decision (cell_ok h c).
Proof. destruct c; apply _. Defined.

#[export] Instance closed_dec h : Decision (closed h).
Proof. apply _. Defined.

(** The module-level constant is bound to an object of the store that
    holds the default record, as the load of the module leaves it. *)
Definition loaded (d : value) (h : heap) : Prop :=
  ∃ l, d = VRef l ∧ h !! l = Some (CObj Private.defaultCell).

(** [v.hasOwnProperty] is the inherited method: [v] is neither [undefined]
    nor [null], and owns no property of that name. *)
Definition inherits_hasOwnProperty (h : heap) (v : value) : Prop :=
  match v with
  | VUndefined | VNull => False
  | VBool _ | VNum _ | VStr _ => True
  | VRef l =>
      match h !! l with
      | Some (CObj props) => props !! "hasOwnProperty" = None
      | Some (CArr _) => True
      | None => False
      end
  end.

(** [m] leaves every object of the store as it is. *)
Definition grows {A} (m : M A) : Prop := ∀ h, h ⊆ (m h).1.

Definition member_grows (mb : member) : Prop :=
  match mb with
  | Prop_ _ e => grows e
  | Spread e => grows e
  end.

(** [m] returns an object that did not exist before. *)
Definition returns_new (m : M value) : Prop :=
  ∀ h h' v, m h = (h', Ok v) →
    ∃ l props, v = VRef l ∧ h !! l = None ∧ h' !! l = Some (CObj props).

(** [m], run in a store without dangling references that extends [h0],
    leaves one, only adds objects, and returns a result that satisfies
    [P] there. *)
Definition sound {A} (h0 : heap) (P : heap → A → Prop) (m : M A) : Prop :=
  ∀ h, h0 ⊆ h → closed h →
    h ⊆ (m h).1 ∧ closed (m h).1 ∧ ∀ a, (m h).2 = Ok a → P (m h).1 a.

Definition props_ok (h : heap) (props : gmap string value) : Prop :=
  map_Forall (λ _ v, value_ok h v) props.

Definition member_sound (h0 : heap) (mb : member) : Prop :=
  match mb with
  | Prop_ _ e => sound h0 value_ok e
  | Spread e => sound h0 value_ok e
  end.

(** [m] only reads: in [h] and in every store that extends it, it returns
    [a] and leaves the store alone. *)
Definition reads {A} (m : M A) (h : heap) (a : A) : Prop :=
  ∀ h1, h ⊆ h1 → m h1 = (h1, Ok a).

(** [m] returns from [h], in a store that extends [h], with a result that
    satisfies [Q]. *)
Definition wp {A} (m : M A) (h : heap) (Q : heap → A → Prop) : Prop :=
  ∃ h' a, m h = (h', Ok a) ∧ h ⊆ h' ∧ Q h' a.

End Store.

(** ** Concrete runs *)

Module Scenario.
Import Js Vega.
Local Open Scope js_scope.

(** Inputs, written as the object literals that build them. *)

(** [{"config": {}}] *)
Definition empty_config : M value :=
  object [ Prop_ "config" (object []) ].

(** [{"config": {"cell": {"width": 999}}}] *)
Definition cell_width_999 : M value :=
  object [ Prop_ "config" (object
             [ Prop_ "cell" (object
                 [ Prop_ "width" (ret (VNum 999%float)) ]) ]) ].

(** [{"config": {"other": "x"}}] *)
Definition config_other_x : M value :=
  object [ Prop_ "config" (object [ Prop_ "other" (ret (VStr "x")) ]) ].

(** [{"mark": "bar"}] *)
Definition mark_bar : M value :=
  object [ Prop_ "mark" (ret (VStr "bar")) ].

(** [{"hasOwnProperty": true}] *)
Definition shadowing : M value :=
  object [ Prop_ "hasOwnProperty" (ret (VBool true)) ].

(** The module is loaded, the input is built, and the default merge is
    called on it: the input and the outcome of the call. *)
Definition call (input : M value) : M (value * result value) :=
  d ← Private.load;
  s ← input;
  λ h, let (h', r) := Private.updateVegaLiteDefaults d s h in (h', Ok (s, r)).

(** The property reached along [ks] from the returned object, in the
    store after the call. *)
Definition result_at (input : M value) (ks : list string)
  : result (option value) :=
  match call input ∅ with
  | (h, Ok (_, Ok r)) => Ok (Read.path h r ks)
  | (_, Ok (_, Throw e)) | (_, Throw e) => Throw e
  end.

(** The own keys of the object reached along [ks] from the returned
    object. *)
Definition result_keys_at (input : M value) (ks : list string)
  : result (option (list string)) :=
  match call input ∅ with
  | (h, Ok (_, Ok r)) => Ok (Read.keys h <$> Read.path h r ks)
  | (_, Ok (_, Throw e)) | (_, Throw e) => Throw e
  end.

(** The property reached along [ks] from the input object, in the store
    after the call. *)
Definition input_at (input : M value) (ks : list string)
  : result (option value) :=
  match call input ∅ with
  | (h, Ok (s, _)) => Ok (Read.path h s ks)
  | (_, Throw e) => Throw e
  end.

(** Stores written out: the default record at address 1 and a
    specification above it. *)

Definition mark_bar_props : gmap string value := {[ "mark" := VStr "bar" ]}.

(** [{"mark": "bar"}] at address 2. *)
Definition store_mark_bar : heap :=
  {[ 1%positive := CObj Private.defaultCell;
     2%positive := CObj mark_bar_props ]}.

(** [{"config": {"other": "x"}}] at address 3, its [config] at 2. *)
Definition config_other_props : gmap string value :=
  {[ "config" := VRef 2 ]}.

Definition store_config_other : heap :=
  {[ 1%positive := CObj Private.defaultCell;
     2%positive := CObj {[ "other" := VStr "x" ]};
     3%positive := CObj config_other_props ]}.

(** A view created for the Vega MIME type, and a model whose bundle holds
    a payload under it. *)
Definition vega_view : RenderedVega :=
  constructor (DomNode 0) {| mimeType := VEGA_MIME_TYPE |}.

Definition vega_model : IMimeModel :=
  {| data := {[ VEGA_MIME_TYPE := VStr "payload" ]} |}.

(** A view created for the Vega-Lite MIME type, a model whose bundle
    holds [{"mark": "bar"}] under it, and the call of the embedder that
    rendering the model makes. *)
Definition lite_view : RenderedVega :=
  constructor (DomNode 0) {| mimeType := VEGALITE_MIME_TYPE |}.

Definition lite_model : IMimeModel :=
  {| data := {[ VEGALITE_MIME_TYPE := VRef 2 ]} |}.

Definition lite_run : heap * result EmbedCall :=
  renderModel (VRef 1) lite_view lite_model store_mark_bar.

Definition lite_call : EmbedCall :=
  match lite_run.2 with
  | Ok call => call
  | Throw _ => {| target := DomNode 0;
                  embedSpec := {| mode := ""; spec := VUndefined |};
                  callback := λ _ _ p, p |}
  end.

End Scenario.

(** ** The registration of the renderer *)

Module Registration.
Import Vega.

(** The options of the document widget factory of an extension. *)
Record IDocumentWidgetFactoryOptions : Type := {
  name : string;
  fileExtensions : list string;
  defaultFor : list string;
  readOnly : bool
}.

(** [IRenderMime.IExtension], as the module fills it. *)
Record IExtension : Type := {
  mimeType : string;
  rendererFactory : VegaRendererFactory;
  rank : Z;
  dataType : string;
  documentWidgetFactoryOptions : IDocumentWidgetFactoryOptions
}.

(** The default export of the module. *)
Definition extensions : list IExtension :=
  [ (* Vega *)
    {| mimeType := VEGA_MIME_TYPE;
       rendererFactory := Vega.rendererFactory;
       rank := 0;
       dataType := "json";
       documentWidgetFactoryOptions :=
         {| name := "Vega";
            fileExtensions := [".vg"; ".vg.json"; "json"];
            defaultFor := [".vg"; ".vg.json"];
            readOnly := true |} |};
    (* Vega-Lite *)
    {| mimeType := VEGALITE_MIME_TYPE;
       rendererFactory := Vega.rendererFactory;
       rank := 0;
       dataType := "json";
       documentWidgetFactoryOptions :=
         {| name := "Vega-Lite";
            fileExtensions := [".vl"; ".vl.json"; "json"];
            defaultFor := [".vl"; ".vl.json"];
            readOnly := true |} |} ].

End Registration.

(** ** More concrete runs *)

Module Cases.
Import Js Vega Store.

#[export] Instance inherits_hasOwnProperty_dec h v :
  Decision (inherits_hasOwnProperty h v).
Proof.
  destruct v as [| | | | |l]; cbn; try apply _.
  destruct (h !! l) as [[props|elems]|]; apply _.
Defined.

(** A model whose bundle holds nothing under the Vega-Lite MIME type. *)
Definition empty_model : IMimeModel := {| data := ∅ |}.

(** [{"config": null}] at address 2. *)
Definition null_config_props : gmap string value := {[ "config" := VNull ]}.

Definition store_null_config : heap :=
  {[ 1%positive := CObj Private.defaultCell;
     2%positive := CObj null_config_props ]}.

End Cases.

(** ** Running computations *)

Import Js Vega Store.
Local Open Scope js_scope.

Lemma bind_ok {A B} (m : M A) (f : A → M B) h h' a :
  m h = (h', Ok a) → bind m f h = f a h'.
Proof. intros E. unfold bind. by rewrite E. Qed.

Lemma alloc_run c h :
  ∃ l, h !! l = None ∧ alloc c h = (<[l := c]> h, Ok (VRef l)).
Proof.
  exists (fresh (dom h)). split; [|done].
  apply not_elem_of_dom, is_fresh.
Qed.

Lemma run_hasOwnProperty_obj h l props k :
  h !! l = Some (CObj props) → props !! "hasOwnProperty" = None →
  hasOwnProperty (VRef l) k h = (h, Ok (bool_decide (is_Some (props !! k)))).
Proof.
  intros Hl Hm. cbn. rewrite Hl, Hm. unfold has_own.
  by rewrite orb_false_r.
Qed.

Lemma run_get_prop_obj h l props k v :
  h !! l = Some (CObj props) → props !! k = Some v →
  get_prop (VRef l) k h = (h, Ok v).
Proof. intros Hl Hk. cbn. rewrite Hl. unfold get_own. by rewrite Hk. Qed.

Lemma run_own_enumerable_obj h l props :
  h !! l = Some (CObj props) → own_enumerable (VRef l) h = (h, Ok props).
Proof. intros Hl. cbn. by rewrite Hl. Qed.

(** ** Computations only add objects to the store *)

Lemma grows_ret {A} (a : A) : grows (ret a).
Proof. by intros h. Qed.

Lemma grows_throw {A} e : grows (@throw A e).
Proof. by intros h. Qed.

Lemma grows_bind {A B} (m : M A) (f : A → M B) :
  grows m → (∀ a, grows (f a)) → grows (bind m f).
Proof.
  intros Hm Hf h. unfold bind. specialize (Hm h).
  destruct (m h) as [h1 [a|e]]; cbn in *; [|done].
  etrans; [exact Hm | apply Hf].
Qed.

Lemma grows_alloc c : grows (alloc c).
Proof.
  intros h. cbn. apply insert_subseteq, not_elem_of_dom, is_fresh.
Qed.

Lemma grows_own_enumerable v : grows (own_enumerable v).
Proof.
  intros h. destruct v; cbn; try done.
  destruct (h !! l) as [[?|?]|]; done.
Qed.

Lemma grows_hasOwnProperty v k : grows (hasOwnProperty v k).
Proof.
  intros h. destruct v; cbn; try done.
  destruct (h !! l) as [[props|?]|]; try done.
  destruct (props !! "hasOwnProperty"); done.
Qed.

Lemma grows_get_prop v k : grows (get_prop v k).
Proof.
  intros h. destruct v; cbn; try done.
  destruct (h !! l) as [[?|?]|]; done.
Qed.

Lemma grows_fill ms : Forall member_grows ms → ∀ acc, grows (fill ms acc).
Proof.
  induction 1 as [|mb ms Hmb _ IH]; intros acc; [apply grows_ret|].
  destruct mb as [k e|e]; cbn in *.
  - apply grows_bind; [done|]. intros v. apply IH.
  - apply grows_bind; [done|]. intros v.
    apply grows_bind; [apply grows_own_enumerable|]. intros own. apply IH.
Qed.

Lemma grows_object ms : Forall member_grows ms → grows (object ms).
Proof.
  intros H. apply grows_bind; [by apply grows_fill|].
  intros props. apply grows_alloc.
Qed.

Ltac solve_grows :=
  repeat first
    [ apply grows_ret | apply grows_throw | apply grows_alloc
    | apply grows_own_enumerable | apply grows_hasOwnProperty
    | apply grows_get_prop
    | apply grows_object
    | apply grows_bind; [|intros ?]
    | match goal with
      | |- Forall member_grows [] => constructor
      | |- Forall member_grows (_ :: _) => constructor; [cbn [member_grows]|]
      end
    | match goal with |- grows (if ?b then _ else _) => destruct b end ].

Lemma merge_grows d spec :
  grows (Private.updateVegaLiteDefaults d spec).
Proof. unfold Private.updateVegaLiteDefaults. solve_grows. Qed.

Lemma returns_new_object ms : Forall member_grows ms → returns_new (object ms).
Proof.
  intros H h h' v E. unfold object, bind in E.
  pose proof (grows_fill ms H ∅ h) as Hsub.
  destruct (fill ms ∅ h) as [h1 [props|e]]; [|done]. cbn in *.
  destruct (alloc_run (CObj props) h1) as (l & Hl & Ha).
  rewrite Ha in E. injection E as <- <-.
  exists l, props. split_and!; [done| |by rewrite lookup_insert_eq].
  by eapply lookup_weaken_None.
Qed.

Lemma returns_new_bind {A} (m : M A) (f : A → M value) :
  grows m → (∀ a, returns_new (f a)) → returns_new (bind m f).
Proof.
  intros Hm Hf h h' v E. unfold bind in E. specialize (Hm h).
  destruct (m h) as [h1 [a|e]]; [|done]. cbn in Hm.
  destruct (Hf a h1 h' v E) as (l & props & -> & Hl & Hl').
  exists l, props. split_and!; [done| |done]. by eapply lookup_weaken_None.
Qed.

Lemma merge_returns_new d spec :
  returns_new (Private.updateVegaLiteDefaults d spec).
Proof.
  unfold Private.updateVegaLiteDefaults.
  apply returns_new_bind; [solve_grows|]. intros [|].
  - apply returns_new_bind; [solve_grows|]. intros config.
    apply returns_new_bind; [solve_grows|].
    intros [|]; apply returns_new_object; solve_grows.
  - apply returns_new_object; solve_grows.
Qed.

(** ** The default merge and its argument *)

(** C5: calling the default merge does not mutate its argument.  Whatever
    the constant is bound to, whatever the argument and the store, every
    object that exists before the call is the same after it (its keys and
    its values, the argument's [config] key or its absence included), also
    when the call throws; and a call that returns, returns an object that
    did not exist before. *)
Theorem updateVegaLiteDefaults_does_not_mutate (d spec : value) (h : heap) :
  (∀ l c, h !! l = Some c →
     (Private.updateVegaLiteDefaults d spec h).1 !! l = Some c)
  ∧ (∀ r, (Private.updateVegaLiteDefaults d spec h).2 = Ok r →
       ∃ l props, r = VRef l ∧ h !! l = None ∧
         (Private.updateVegaLiteDefaults d spec h).1 !! l = Some (CObj props)).
Proof.
  split.
  - intros l c Hl. eapply lookup_weaken; [exact Hl|].
    apply merge_grows.
  - intros r Hr.
    destruct (Private.updateVegaLiteDefaults d spec h) as [h' res] eqn:E.
    cbn in *. subst res.
    exact (merge_returns_new d spec h h' r E).
Qed.

(** ** The renderer factory *)

Lemma indexOf_mimeTypes (m : string) :
  indexOf (mimeTypes rendererFactory) m =
    if String.eqb VEGA_MIME_TYPE m then 0
    else if String.eqb VEGALITE_MIME_TYPE m then 1 else -1.
Proof. reflexivity. Qed.

(** C8: [canCreateRenderer] answers [true] exactly for the two registered
    MIME type constants, and [false] for every other string, the empty
    string and strings that differ from a constant only by case
    included. *)
Theorem canCreateRenderer_exactly_registered (options : IRendererOptions) :
  (canCreateRenderer rendererFactory options = true ↔
     mimeType options = "application/vnd.vega.v2+json" ∨
     mimeType options = "application/vnd.vegalite.v1+json")
  ∧ canCreateRenderer rendererFactory {| mimeType := "" |} = false
  ∧ canCreateRenderer rendererFactory
      {| mimeType := "Application/Vnd.Vega.V2+Json" |} = false
  ∧ canCreateRenderer rendererFactory
      {| mimeType := "APPLICATION/VND.VEGALITE.V1+JSON" |} = false.
Proof.
  split; [|by vm_compute].
  unfold canCreateRenderer. rewrite indexOf_mimeTypes.
  fold VEGA_MIME_TYPE VEGALITE_MIME_TYPE.
  destruct (String.eqb_spec VEGA_MIME_TYPE (mimeType options)) as [E1|N1];
    [split; [by left|done]|].
  destruct (String.eqb_spec VEGALITE_MIME_TYPE (mimeType options)) as [E2|N2];
    [split; [by right|done]|].
  split; [done|]. intros [E|E]; by rewrite E in *.
Qed.

(** ** The widget *)

(** C9: for every MIME type other than the Vega constant, recognised or
    not, the constructor (a total function: it has no failing path) sets
    the mode to ['vega-lite'], and keeps the MIME type it was given. *)
Theorem constructor_defaults_to_vega_lite (n : Node)
    (options : IRendererOptions) :
  mimeType options ≠ VEGA_MIME_TYPE →
  _mode (constructor n options) = "vega-lite"
  ∧ _mimeType (constructor n options) = mimeType options
  ∧ node (constructor n options) = n.
Proof.
  intros Hne. unfold constructor.
  destruct (String.eqb_spec (mimeType options) VEGA_MIME_TYPE); done.
Qed.

(** C9 at the unregistered MIME type [text/html]. *)
Lemma constructor_defaults_to_vega_lite_witness :
  mimeType {| mimeType := "text/html" |} ≠ VEGA_MIME_TYPE
  ∧ _mode (constructor (DomNode 0) {| mimeType := "text/html" |})
    = "vega-lite"
  ∧ _mimeType (constructor (DomNode 0) {| mimeType := "text/html" |})
    = "text/html"
  ∧ node (constructor (DomNode 0) {| mimeType := "text/html" |})
    = DomNode 0.
Proof.
  split; [done|].
  apply (constructor_defaults_to_vega_lite (DomNode 0)
           {| mimeType := "text/html" |}).
  done.
Defined.

(** Which views are in vega mode: those created for the Vega MIME type. *)
Lemma constructor_mode_vega (n : Node) (options : IRendererOptions) :
  _mode (constructor n options) = "vega" ↔
  mimeType options = VEGA_MIME_TYPE.
Proof.
  unfold constructor.
  destruct (String.eqb_spec (mimeType options) VEGA_MIME_TYPE); by split.
Qed.

(** C6: a view in vega mode hands to the embedder, as [spec], the very
    value that the model's bundle holds under the view's MIME type
    ([undefined] when it holds none): the call is always reached, nothing
    is allocated or changed in the store, and the mode tag is ['vega']. *)
Theorem renderModel_vega_passes_payload (d : value) (this : RenderedVega)
    (model : IMimeModel) (h : heap) :
  _mode this = "vega" →
  ∃ call, renderModel d this model h = (h, Ok call)
    ∧ spec (embedSpec call)
      = default VUndefined (data model !! _mimeType this)
    ∧ mode (embedSpec call) = "vega"
    ∧ target call = node this.
Proof.
  intros Hmode. unfold renderModel. rewrite Hmode. cbn.
  eexists. split; [reflexivity|]. cbn. split_and!; [|done..].
  unfold get_own. by destruct (data model !! _mimeType this).
Qed.

(** C6 at a view created for the Vega MIME type and a model that holds a
    payload under it. *)
Lemma renderModel_vega_passes_payload_witness :
  _mode Scenario.vega_view = "vega"
  ∧ ∃ call,
      renderModel VNull Scenario.vega_view Scenario.vega_model ∅
      = (∅, Ok call)
      ∧ spec (embedSpec call)
        = default VUndefined
            (data Scenario.vega_model !! _mimeType Scenario.vega_view)
      ∧ mode (embedSpec call) = "vega"
      ∧ target call = node Scenario.vega_view.
Proof.
  split; [reflexivity|].
  apply (renderModel_vega_passes_payload VNull
           Scenario.vega_view Scenario.vega_model ∅).
  reflexivity.
Defined.

(** The callback that [renderModel] passes to the embedder. *)
Lemma renderModel_callback d this model h h' call :
  renderModel d this model h = (h', Ok call) →
  callback call = λ error result, resolve VUndefined.
Proof.
  unfold renderModel, bind. intros E.
  destruct (if String.eqb (_mode this) "vega-lite" then _ else _)
    as [h1 [v|e]]; [|done].
  cbn in E. by injection E as _ <-.
Qed.

(** A resolved promise stays resolved, whatever the embedder does next. *)
Lemma settled_stays call v evs :
  callback call = (λ error result, resolve VUndefined) →
  foldl (promise_step call) (Resolved v) evs = Resolved v.
Proof.
  intros Hcb. induction evs as [|ev evs IH]; [done|].
  cbn. destruct ev as [error result|e]; cbn; [rewrite Hcb|]; exact IH.
Qed.

(** A rejection comes from an exception of the embedder, never from the
    callback. *)
Lemma rejected_only_by_throw call evs p reason :
  callback call = (λ error result, resolve VUndefined) →
  foldl (promise_step call) p evs = Rejected reason →
  p = Rejected reason ∨ ThrowsFromExecutor reason ∈ evs.
Proof.
  intros Hcb. revert p. induction evs as [|ev evs IH]; intros p; cbn.
  - by left.
  - intros [Hp|Hin]%IH; [|right; by right].
    destruct ev as [error result|e]; cbn in Hp.
    + rewrite Hcb in Hp. destruct p; cbn in Hp; try done. by left.
    + destruct p; cbn in Hp; try done; [|by left].
      injection Hp as ->. right. left.
Qed.

(** C7: whenever [renderModel] reaches the embedder, whatever pair of
    arguments the embedder passes to the completion callback (a non-null
    error as first argument included), the promise resolves, with
    [undefined], and nothing that happens afterwards changes that; the
    callback rejects no promise, whatever it is told; and the promise is
    never rejected on account of the callback: a rejection can only be an
    exception that the embedder itself throws out of the executor. *)
Theorem renderModel_promise_resolves (d : value) (this : RenderedVega)
    (model : IMimeModel) (h h' : heap) (call : EmbedCall) :
  renderModel d this model h = (h', Ok call) →
  (∀ error result : value,
     callback call error result Pending = Resolved VUndefined
     ∧ (∀ rest, settle call (CallsBack error result :: rest)
                = Resolved VUndefined)
     ∧ (∀ p reason, callback call error result p = Rejected reason →
                    p = Rejected reason))
  ∧ (∀ evs reason, settle call evs = Rejected reason →
                   ThrowsFromExecutor reason ∈ evs).
Proof.
  intros E. pose proof (renderModel_callback _ _ _ _ _ _ E) as Hcb.
  split.
  - intros error result. split_and!.
    + by rewrite Hcb.
    + intros rest. unfold settle. cbn. rewrite Hcb. cbn.
      by apply settled_stays.
    + intros p reason. rewrite Hcb. by destruct p.
  - intros evs reason Hrej.
    by destruct (rejected_only_by_throw call evs Pending reason Hcb Hrej).
Qed.

(** ** Reads are stable when the store grows *)

Lemma reads_here {A} (m : M A) h a : reads m h a → m h = (h, Ok a).
Proof. intros R. by apply R. Qed.

Lemma reads_ret {A} (a : A) h : reads (ret a) h a.
Proof. by intros h1 _. Qed.

Lemma reads_bind {A B} (m : M A) (f : A → M B) h a b :
  reads m h a → reads (f a) h b → reads (bind m f) h b.
Proof.
  intros Rm Rf h1 Hsub. erewrite bind_ok by (by apply Rm). by apply Rf.
Qed.

Lemma reads_own_enumerable_obj h l props :
  h !! l = Some (CObj props) → reads (own_enumerable (VRef l)) h props.
Proof.
  intros Hl h1 Hsub. apply run_own_enumerable_obj. by eapply lookup_weaken.
Qed.

Lemma reads_hasOwnProperty_obj h l props k :
  h !! l = Some (CObj props) → props !! "hasOwnProperty" = None →
  reads (hasOwnProperty (VRef l) k) h (bool_decide (is_Some (props !! k))).
Proof.
  intros Hl Hm h1 Hsub. apply run_hasOwnProperty_obj; [|done].
  by eapply lookup_weaken.
Qed.

Lemma reads_get_prop_obj h l props k v :
  h !! l = Some (CObj props) → props !! k = Some v →
  reads (get_prop (VRef l) k) h v.
Proof.
  intros Hl Hk h1 Hsub. eapply run_get_prop_obj; [|done].
  by eapply lookup_weaken.
Qed.

(** A value that does not dangle can be spread. *)
Lemma reads_own_enumerable h v :
  value_ok h v → ∃ own, reads (own_enumerable v) h own.
Proof.
  destruct v as [| | | | |l]; cbn; intros Hv;
    try (eexists; intros h1 _; reflexivity).
  destruct Hv as [[props|elems] Hl].
  - exists props. by apply reads_own_enumerable_obj.
  - exists (array_props elems). intros h1 Hsub. cbn.
    by rewrite (lookup_weaken _ _ _ _ Hl Hsub).
Qed.

(** The inherited [hasOwnProperty] returns. *)
Lemma reads_hasOwnProperty h v k :
  inherits_hasOwnProperty h v → ∃ b, reads (hasOwnProperty v k) h b.
Proof.
  destruct v as [| | | | |l]; cbn; intros Hv; try done;
    try (eexists; intros h1 _; reflexivity).
  destruct (h !! l) as [[props|elems]|] eqn:Hl; [| |done].
  - eexists. by eapply reads_hasOwnProperty_obj.
  - eexists. intros h1 Hsub. cbn.
    by rewrite (lookup_weaken _ _ _ _ Hl Hsub).
Qed.

Lemma indexed_from_lookup {A} (f : A → value) i l k v :
  indexed_from f i l !! k = Some v → ∃ x, x ∈ l ∧ v = f x.
Proof.
  revert i. induction l as [|x l IH]; intros i; cbn; [done|].
  intros [[_ <-]|[_ H]]%lookup_insert_Some.
  - exists x. split; [left|done].
  - destruct (IH _ H) as (y & Hy & ->). exists y. split; [by right|done].
Qed.

(** Reading a property of a value that can call [hasOwnProperty], in a
    store without dangling references, returns a value that does not
    dangle. *)
Lemma reads_get_prop h v k :
  closed h → inherits_hasOwnProperty h v →
  ∃ w, reads (get_prop v k) h w ∧ value_ok h w.
Proof.
  intros Hclosed.
  destruct v as [| | | | |l]; cbn; intros Hv; try done;
    try (eexists; split; [intros h1 _; reflexivity|done]).
  - eexists. split; [intros h1 _; reflexivity|].
    unfold get_own.
    destruct (string_props s !! k) as [w|] eqn:Hk.
    + apply indexed_from_lookup in Hk as (x & _ & ->). done.
    + by case_bool_decide.
  - destruct (h !! l) as [[props|elems]|] eqn:Hl; [| |done].
    + exists (get_own props None k). split.
      * intros h1 Hsub. cbn. by rewrite (lookup_weaken _ _ _ _ Hl Hsub).
      * unfold get_own. destruct (props !! k) as [w|] eqn:Hk; [|done].
        exact (Hclosed l _ Hl k w Hk).
    + exists (get_own (array_props elems) (Some (length elems)) k). split.
      * intros h1 Hsub. cbn. by rewrite (lookup_weaken _ _ _ _ Hl Hsub).
      * unfold get_own.
        destruct (array_props elems !! k) as [w|] eqn:Hk.
        -- apply indexed_from_lookup in Hk as (x & Hx & ->).
           pose proof (Hclosed l _ Hl) as Hc. cbn in Hc.
           by eapply Forall_forall in Hc.
        -- by case_bool_decide.
Qed.

(** ** Rules for running object literals *)

Lemma wp_reads {A} (m : M A) h0 h a (Q : heap → A → Prop) :
  reads m h0 a → h0 ⊆ h → Q h a → wp m h Q.
Proof. intros R Hsub HQ. exists h, a. split_and!; [by apply R|done|done]. Qed.

Lemma wp_bind {A B} (m : M A) (f : A → M B) h (Q : heap → B → Prop) :
  wp m h (λ h1 a, wp (f a) h1 Q) → wp (bind m f) h Q.
Proof.
  intros (h1 & a & E & Hsub & h2 & b & E' & Hsub' & HQ).
  exists h2, b. split_and!; [|by etrans|done].
  by erewrite bind_ok.
Qed.

Lemma wp_alloc c h (Q : heap → value → Prop) :
  (∀ l, h !! l = None → Q (<[l := c]> h) (VRef l)) → wp (alloc c) h Q.
Proof.
  intros HQ. destruct (alloc_run c h) as (l & Hl & E).
  exists (<[l := c]> h), (VRef l). split_and!; [done| |by apply HQ].
  by apply insert_subseteq.
Qed.

Lemma wp_object ms h (Q : heap → value → Prop) :
  wp (fill ms ∅) h
     (λ h1 props, ∀ l, h1 !! l = None →
                       Q (<[l := CObj props]> h1) (VRef l)) →
  wp (object ms) h Q.
Proof.
  intros H. apply wp_bind.
  destruct H as (h1 & props & E & Hsub & HQ).
  exists h1, props. split_and!; [done..|]. by apply wp_alloc.
Qed.

Lemma wp_fill_nil acc h (Q : heap → gmap string value → Prop) :
  Q h acc → wp (fill [] acc) h Q.
Proof. intros HQ. by exists h, acc. Qed.

(** ["k": v] for a value [v] that is read. *)
Lemma wp_fill_prop_reads k e r acc h0 h v
    (Q : heap → gmap string value → Prop) :
  reads e h0 v → h0 ⊆ h →
  wp (fill r (<[k := v]> acc)) h Q →
  wp (fill (Prop_ k e :: r) acc) h Q.
Proof.
  intros R Hsub H. cbn. apply wp_bind. by eapply wp_reads.
Qed.

(** ["k": {...}] for a nested literal. *)
Lemma wp_fill_prop_object k ms r acc h
    (Q : heap → gmap string value → Prop) :
  wp (fill ms ∅) h
     (λ h1 props, ∀ l, h1 !! l = None →
        wp (fill r (<[k := VRef l]> acc)) (<[l := CObj props]> h1) Q) →
  wp (fill (Prop_ k (object ms) :: r) acc) h Q.
Proof.
  intros H. cbn. apply wp_bind. by apply wp_object.
Qed.

(** [...v] for a value [v] that is read. *)
Lemma wp_fill_spread_reads e r acc h0 h v own
    (Q : heap → gmap string value → Prop) :
  reads e h0 v → reads (own_enumerable v) h0 own → h0 ⊆ h →
  wp (fill r (own ∪ acc)) h Q →
  wp (fill (Spread e :: r) acc) h Q.
Proof.
  intros R R' Hsub H. cbn. apply wp_bind. eapply wp_reads; [done..|].
  apply wp_bind. by eapply wp_reads.
Qed.

(** [...{...}] for a nested literal. *)
Lemma wp_fill_spread_object ms r acc h
    (Q : heap → gmap string value → Prop) :
  wp (fill ms ∅) h
     (λ h1 props, ∀ l, h1 !! l = None →
        wp (fill r (props ∪ acc)) (<[l := CObj props]> h1) Q) →
  wp (fill (Spread (object ms) :: r) acc) h Q.
Proof.
  intros H. cbn. apply wp_bind. apply wp_object.
  destruct H as (h1 & props & E & Hsub & HQ).
  exists h1, props. split_and!; [done..|]. intros l Hl.
  apply wp_bind. eapply wp_reads; [|reflexivity|by apply HQ].
  apply reads_own_enumerable_obj. by rewrite lookup_insert_eq.
Qed.

Lemma fresh_extends (h0 h : heap) l c :
  h0 ⊆ h → h !! l = None → h0 ⊆ <[l := c]> h.
Proof. intros Hsub Hl. etrans; [done|]. by apply insert_subseteq. Qed.

Lemma fresh_before (h0 h : heap) l : h0 ⊆ h → h !! l = None → h0 !! l = None.
Proof. intros Hsub Hl. by eapply lookup_weaken_None. Qed.

(** ** The default merge on a specification without [config] *)

Lemma wp_merge_without_config d s h props :
  h !! s = Some (CObj props) →
  props !! "hasOwnProperty" = None →
  props !! "config" = None →
  wp (Private.updateVegaLiteDefaults d (VRef s)) h
     (λ h' v, ∃ r c, v = VRef r
        ∧ h' !! r = Some (CObj (<["config" := VRef c]> props))
        ∧ h' !! c = Some (CObj {[ "cell" := d ]})
        ∧ h !! r = None ∧ h !! c = None).
Proof.
  intros Hs Hshadow Hcfg. unfold Private.updateVegaLiteDefaults.
  apply wp_bind.
  eapply wp_reads; [by apply reads_hasOwnProperty_obj|done|].
  rewrite Hcfg, bool_decide_eq_false_2 by (by intros [? ?]).
  apply wp_object, wp_fill_spread_object, wp_fill_prop_object.
  eapply wp_fill_prop_reads; [apply reads_ret|done|].
  apply wp_fill_nil. intros c Hc.
  apply wp_fill_nil. intros a Ha.
  assert (h ⊆ <[a := CObj (<["config" := VRef c]> ∅)]>
                (<[c := CObj (<["cell" := d]> ∅)]> h)) as Hsub
    by (apply fresh_extends; [by apply insert_subseteq|done]).
  eapply wp_fill_spread_reads;
    [apply reads_ret|by apply reads_own_enumerable_obj|exact Hsub|].
  apply wp_fill_nil. intros r Hr.
  exists r, c. split_and!; [done| | | |done].
  - rewrite lookup_insert_eq. do 2 f_equal.
    rewrite (right_id_L ∅ (∪)), insert_empty.
    by rewrite <-insert_union_singleton_r.
  - apply lookup_insert_None in Hr as [Hr Hra].
    apply lookup_insert_None in Ha as [Ha Hac].
    apply lookup_insert_None in Hr as [Hr Hrc].
    rewrite lookup_insert_ne by done. rewrite lookup_insert_ne by done.
    by rewrite lookup_insert_eq, insert_empty.
  - by eapply fresh_before.
Qed.

(** C4, as amended: for every specification object that owns neither a
    [config] key nor a key named [hasOwnProperty], the default merge
    returns a new object that is the specification extended with a
    [config] key, whose value is a new object [{cell: D}], where [D] is
    the object bound to the constant and holds
    [{width: 400, height: 400/1.5}]; every key of the specification keeps
    its value, and no object of the store is changed. *)
Theorem updateVegaLiteDefaults_no_config (d : value) (s : loc) (h : heap)
    (props : gmap string value) :
  loaded d h →
  h !! s = Some (CObj props) →
  props !! "hasOwnProperty" = None →
  props !! "config" = None →
  ∃ h' r c,
    Private.updateVegaLiteDefaults d (VRef s) h = (h', Ok (VRef r))
    ∧ h' !! r = Some (CObj (<["config" := VRef c]> props))
    ∧ h' !! c = Some (CObj {[ "cell" := d ]})
    ∧ loaded d h'
    ∧ Read.path h' (VRef r) ["config"; "cell"; "width"]
      = Some (VNum 400%float)
    ∧ Read.path h' (VRef r) ["config"; "cell"; "height"]
      = Some (VNum (400 / 1.5)%float)
    ∧ (∀ k v, props !! k = Some v → Read.own h' (VRef r) k = Some v)
    ∧ h ⊆ h' ∧ h !! r = None ∧ h !! c = None.
Proof.
  intros (dl & -> & Hd) Hs Hshadow Hcfg.
  destruct (wp_merge_without_config (VRef dl) s h props)
    as (h' & v & E & Hsub & r & c & -> & Hr & Hc & Hfr & Hfc); [done..|].
  pose proof (lookup_weaken _ _ _ _ Hd Hsub) as Hd'.
  exists h', r, c. split_and!; try done.
  - by exists dl.
  - cbn. rewrite Hr, lookup_insert_eq. cbn. rewrite Hc, lookup_singleton_eq.
    cbn. by rewrite Hd'.
  - cbn. rewrite Hr, lookup_insert_eq. cbn. rewrite Hc, lookup_singleton_eq.
    cbn. by rewrite Hd'.
  - intros k v Hk. cbn. rewrite Hr. rewrite lookup_insert_ne; [done|].
    intros <-. by rewrite Hcfg in Hk.
Qed.

(** ** The default merge on a specification with [config] *)

Ltac solve_extends :=
  repeat (apply fresh_extends; [|eassumption]); reflexivity.

(** What the trailing [...spec] leaves of the object it is spread over:
    the key that [spec] owns is overridden. *)
Lemma spread_over_synthesized (props own : gmap string value) k v w :
  props !! k = Some w →
  props ∪ ((own ∪ <[k := v]> ∅) ∪ ∅) = props ∪ own.
Proof.
  intros Hk. apply map_eq. intros j.
  rewrite (right_id_L ∅ (∪)), insert_empty, !lookup_union.
  destruct (decide (j = k)) as [->|Hne].
  - rewrite Hk, lookup_singleton_eq. by destruct (own !! k).
  - rewrite lookup_singleton_ne by done. by rewrite (right_id_L None union).
Qed.

Lemma wp_merge_with_config d s h props cfg :
  closed h → value_ok h d →
  h !! s = Some (CObj props) →
  props !! "hasOwnProperty" = None →
  props !! "config" = Some cfg →
  inherits_hasOwnProperty h cfg →
  ∃ own, reads (own_enumerable cfg) h own ∧
    wp (Private.updateVegaLiteDefaults d (VRef s)) h
       (λ h' v, ∃ r, v = VRef r
          ∧ h' !! r = Some (CObj (props ∪ own)) ∧ h !! r = None).
Proof.
  intros Hclosed Hd Hs Hshadow Hcfg Hinh.
  assert (value_ok h cfg) as Hcfg_ok by exact (Hclosed s _ Hs "config" cfg Hcfg).
  destruct (reads_own_enumerable h d Hd) as [dprops Rd].
  destruct (reads_own_enumerable h cfg Hcfg_ok) as [own Rown].
  destruct (reads_hasOwnProperty h cfg "cell" Hinh) as [has_cell Rb].
  destruct (reads_get_prop h cfg "cell" Hclosed Hinh) as (cellv & Rcell & Hcellv).
  destruct (reads_own_enumerable h cellv Hcellv) as [cown Rcown].
  pose proof (reads_get_prop_obj h s props "config" cfg Hs Hcfg) as Rconfig.
  pose proof (reads_own_enumerable_obj h s props Hs) as Rspec.
  exists own. split; [done|].
  unfold Private.updateVegaLiteDefaults.
  apply wp_bind.
  eapply wp_reads; [by apply reads_hasOwnProperty_obj|done|].
  rewrite Hcfg, bool_decide_eq_true_2 by done.
  apply wp_bind. eapply wp_reads; [exact Rconfig|done|].
  apply wp_bind. eapply wp_reads; [exact Rb|done|].
  destruct has_cell.
  - apply wp_object, wp_fill_spread_object, wp_fill_prop_object,
      wp_fill_spread_object, wp_fill_prop_object.
    eapply wp_fill_spread_reads; [apply reads_ret|exact Rd|done|].
    eapply wp_fill_spread_reads;
      [eapply reads_bind; [exact Rconfig|exact Rcell]|exact Rcown|done|].
    apply wp_fill_nil. intros z Hz.
    apply wp_fill_nil. intros y Hy.
    apply wp_fill_nil. intros x Hx.
    eapply wp_fill_spread_reads; [exact Rconfig|exact Rown|solve_extends|].
    apply wp_fill_nil. intros a Ha.
    eapply wp_fill_spread_reads; [apply reads_ret|exact Rspec|solve_extends|].
    apply wp_fill_nil. intros r Hr.
    exists r. split_and!; [done| |].
    + rewrite lookup_insert_eq. do 2 f_equal.
      by eapply spread_over_synthesized.
    + eapply fresh_before; [|exact Hr]. solve_extends.
  - apply wp_object, wp_fill_spread_object, wp_fill_prop_object,
      wp_fill_spread_object, wp_fill_prop_object.
    eapply wp_fill_spread_reads; [apply reads_ret|exact Rd|done|].
    apply wp_fill_nil. intros z Hz.
    apply wp_fill_nil. intros y Hy.
    apply wp_fill_nil. intros x Hx.
    eapply wp_fill_spread_reads; [exact Rconfig|exact Rown|solve_extends|].
    apply wp_fill_nil. intros a Ha.
    eapply wp_fill_spread_reads; [apply reads_ret|exact Rspec|solve_extends|].
    apply wp_fill_nil. intros r Hr.
    exists r. split_and!; [done| |].
    + rewrite lookup_insert_eq. do 2 f_equal.
      by eapply spread_over_synthesized.
    + eapply fresh_before; [|exact Hr]. solve_extends.
Qed.

(** The returned object, exactly: the own properties of the
    specification, and under every other key the own enumerable property
    of the [config] value, if it has one. *)
Lemma merge_with_config_exact d s h props cfg :
  closed h → value_ok h d →
  h !! s = Some (CObj props) →
  props !! "hasOwnProperty" = None →
  props !! "config" = Some cfg →
  inherits_hasOwnProperty h cfg →
  ∃ h' r own,
    Private.updateVegaLiteDefaults d (VRef s) h = (h', Ok (VRef r))
    ∧ own_enumerable cfg h = (h, Ok own)
    ∧ h' !! r = Some (CObj (props ∪ own))
    ∧ h ⊆ h' ∧ h !! r = None.
Proof.
  intros Hclosed Hd Hs Hshadow Hcfg Hinh.
  destruct (wp_merge_with_config d s h props cfg)
    as (own & Rown & h' & v & E & Hsub & r & -> & Hr & Hfr); [done..|].
  exists h', r, own. split_and!; try done. by apply reads_here.
Qed.

(** ** The load of the module *)

Lemma load_loaded h :
  ∃ h' d, Private.load h = (h', Ok d) ∧ loaded d h' ∧ h ⊆ h'.
Proof.
  destruct (alloc_run (CObj Private.defaultCell) h) as (l & Hl & E).
  exists (<[l := CObj Private.defaultCell]> h), (VRef l).
  split_and!; [exact E| |by apply insert_subseteq].
  exists l. by rewrite lookup_insert_eq.
Qed.

Lemma merge_keeps_loaded d spec h :
  loaded d h → loaded d (Private.updateVegaLiteDefaults d spec h).1.
Proof.
  intros (l & -> & Hl). exists l. split; [done|].
  eapply lookup_weaken; [exact Hl|apply merge_grows].
Qed.

(** ** The default merge at concrete specifications *)

(** C4, as amended, at [{"mark": "bar"}]. *)
Lemma updateVegaLiteDefaults_no_config_witness :
  loaded (VRef 1) Scenario.store_mark_bar
  ∧ Scenario.store_mark_bar !! 2%positive
    = Some (CObj Scenario.mark_bar_props)
  ∧ Scenario.mark_bar_props !! "hasOwnProperty" = None
  ∧ Scenario.mark_bar_props !! "config" = None
  ∧ ∃ h' r c,
      Private.updateVegaLiteDefaults (VRef 1) (VRef 2) Scenario.store_mark_bar
      = (h', Ok (VRef r))
      ∧ h' !! r = Some (CObj (<["config" := VRef c]> Scenario.mark_bar_props))
      ∧ Read.path h' (VRef r) ["config"; "cell"; "width"]
        = Some (VNum 400%float)
      ∧ Read.path h' (VRef r) ["config"; "cell"; "height"]
        = Some (VNum (400 / 1.5)%float)
      ∧ Read.path h' (VRef r) ["mark"] = Some (VStr "bar").
Proof.
  assert (loaded (VRef 1) Scenario.store_mark_bar) as H1
    by (exists 1%positive; split; reflexivity).
  assert (Scenario.store_mark_bar !! 2%positive
          = Some (CObj Scenario.mark_bar_props)) as H2 by reflexivity.
  assert (Scenario.mark_bar_props !! "hasOwnProperty" = None) as H3
    by reflexivity.
  assert (Scenario.mark_bar_props !! "config" = None) as H4 by reflexivity.
  split_and!; [done..|].
  destruct (updateVegaLiteDefaults_no_config (VRef 1) 2%positive
              Scenario.store_mark_bar Scenario.mark_bar_props H1 H2 H3 H4)
    as (h' & r & c & E & Hr & _ & _ & Hw & Hh & Hkeep & _).
  exists h', r, c. split_and!; [done..|].
  unfold Read.path. by rewrite (Hkeep "mark" (VStr "bar")).
Defined.

(** C4, as stated, fails at [{"hasOwnProperty": true}], a specification
    without [config]: the property shadows the method that the merge
    calls on the specification, and the call throws a [TypeError]. *)
Lemma updateVegaLiteDefaults_no_config_shadowed :
  Scenario.input_at Scenario.shadowing ["hasOwnProperty"]
  = Ok (Some (VBool true))
  ∧ Scenario.input_at Scenario.shadowing ["config"] = Ok None
  ∧ Scenario.result_at Scenario.shadowing [] = Throw TypeError.
Proof. by vm_compute. Qed.


(** C1 (the code fails it): at [{"config": {}}] the default merge returns
    an object whose [config] is the caller's own, empty, object: it has no
    [cell], hence neither [width] nor [height]. *)
Theorem updateVegaLiteDefaults_empty_config_gets_no_cell :
  Scenario.result_keys_at Scenario.empty_config [] = Ok (Some ["config"])
  ∧ Scenario.result_keys_at Scenario.empty_config ["config"] = Ok (Some [])
  ∧ Scenario.result_at Scenario.empty_config ["config"]
    = Scenario.input_at Scenario.empty_config ["config"]
  ∧ Scenario.result_at Scenario.empty_config ["config"; "cell"] = Ok None.
Proof. by vm_compute. Qed.

(** C2 (the code fails it): at [{"config": {"cell": {"width": 999}}}] the
    returned object has [config.cell.width] equal to 999 but no
    [config.cell.height]: its [config] is the caller's own object, and the
    merged cell is dropped.  The caller's [cell] is moreover hoisted to
    the top level. *)
Theorem updateVegaLiteDefaults_partial_cell_gets_no_height :
  Scenario.result_at Scenario.cell_width_999 ["config"; "cell"; "width"]
  = Ok (Some (VNum 999%float))
  ∧ Scenario.result_at Scenario.cell_width_999 ["config"; "cell"; "height"]
    = Ok None
  ∧ Scenario.result_keys_at Scenario.cell_width_999 ["config"; "cell"]
    = Ok (Some ["width"])
  ∧ Scenario.result_at Scenario.cell_width_999 ["config"]
    = Scenario.input_at Scenario.cell_width_999 ["config"]
  ∧ Scenario.result_at Scenario.cell_width_999 ["cell"; "width"]
    = Ok (Some (VNum 999%float)).
Proof. by vm_compute. Qed.

(** C3 (the code fails it): at [{"config": {"other": "x"}}] the returned
    object keeps [config.other] but gets no [config.cell]: its [config] is
    the caller's own object, whose only key is [other]. *)
Theorem updateVegaLiteDefaults_config_without_cell_gets_no_cell :
  Scenario.result_at Scenario.config_other_x ["config"; "other"]
  = Ok (Some (VStr "x"))
  ∧ Scenario.result_at Scenario.config_other_x ["config"; "cell"] = Ok None
  ∧ Scenario.result_keys_at Scenario.config_other_x ["config"]
    = Ok (Some ["other"])
  ∧ Scenario.result_at Scenario.config_other_x ["config"]
    = Scenario.input_at Scenario.config_other_x ["config"].
Proof. by vm_compute. Qed.

(** What the default merge does give, where it works: at [{"mark": "bar"}]
    the returned object has the default cell under [config]. *)
Example updateVegaLiteDefaults_mark_bar :
  Scenario.result_at Scenario.mark_bar ["config"; "cell"; "width"]
  = Ok (Some (VNum 400%float))
  ∧ Scenario.result_at Scenario.mark_bar ["config"; "cell"; "height"]
    = Ok (Some (VNum (400 / 1.5)%float))
  ∧ Scenario.result_at Scenario.mark_bar ["mark"] = Ok (Some (VStr "bar"))
  ∧ Scenario.input_at Scenario.mark_bar ["config"] = Ok None.
Proof. by vm_compute. Qed.

(** ** Rendering at a concrete model *)

(** C7 at a view created for the Vega-Lite MIME type, a model that holds
    [{"mark": "bar"}], and an embedder that reports an error to the
    callback, then throws, then calls back again. *)
Lemma renderModel_promise_resolves_witness :
  renderModel (VRef 1) Scenario.lite_view Scenario.lite_model
    Scenario.store_mark_bar
  = (Scenario.lite_run.1, Ok Scenario.lite_call)
  ∧ callback Scenario.lite_call (VStr "embed failed") VNull Pending
    = Resolved VUndefined
  ∧ settle Scenario.lite_call
      [CallsBack (VStr "embed failed") VNull;
       ThrowsFromExecutor (VStr "late"); CallsBack VNull VNull]
    = Resolved VUndefined.
Proof.
  assert (renderModel (VRef 1) Scenario.lite_view Scenario.lite_model
            Scenario.store_mark_bar
          = (Scenario.lite_run.1, Ok Scenario.lite_call)) as E
    by (vm_compute; reflexivity).
  split; [exact E|].
  destruct (renderModel_promise_resolves (VRef 1) Scenario.lite_view
              Scenario.lite_model Scenario.store_mark_bar
              Scenario.lite_run.1 Scenario.lite_call E) as [H _].
  destruct (H (VStr "embed failed") VNull) as (H1 & H2 & _).
  split; [exact H1|apply H2].
Defined.

(** Rendering [{"mark": "bar"}] in a view created for the Vega-Lite MIME
    type calls the embedder with mode ['vega-lite'] and a specification
    whose [config.cell] is the default record. *)
Example renderModel_lite_mark_bar :
  mode (embedSpec Scenario.lite_call) = "vega-lite"
  ∧ Read.path Scenario.lite_run.1 (spec (embedSpec Scenario.lite_call))
      ["config"; "cell"] = Some (VRef 1)
  ∧ Scenario.lite_run.1 !! 1%positive = Some (CObj Private.defaultCell)
  ∧ Read.path Scenario.lite_run.1 (spec (embedSpec Scenario.lite_call))
      ["mark"] = Some (VStr "bar").
Proof. by vm_compute. Qed.

(** ** Stores stay without dangling references *)

Lemma value_ok_mono h h' v : h ⊆ h' → value_ok h v → value_ok h' v.
Proof.
  intros Hsub. destruct v; cbn; try done.
  intros [c Hc]. exists c. by eapply lookup_weaken.
Qed.

Lemma props_ok_mono h h' props : h ⊆ h' → props_ok h props → props_ok h' props.
Proof. intros Hsub H k v Hk. eapply value_ok_mono; [done|]. by eapply H. Qed.

Lemma cell_ok_mono h h' c : h ⊆ h' → cell_ok h c → cell_ok h' c.
Proof.
  intros Hsub. destruct c as [props|elems]; cbn.
  - by apply props_ok_mono.
  - intros H. eapply Forall_impl; [exact H|].
    intros v. by apply value_ok_mono.
Qed.

Lemma closed_empty : closed ∅.
Proof. intros l c Hl. by rewrite lookup_empty in Hl. Qed.

Lemma closed_insert h l c :
  closed h → h !! l = None → cell_ok h c → closed (<[l := c]> h).
Proof.
  intros Hclosed Hl Hc l' c' [[<- <-]|[_ Hl']]%lookup_insert_Some.
  - eapply cell_ok_mono; [|done]. by apply insert_subseteq.
  - eapply cell_ok_mono; [by apply insert_subseteq|]. by eapply Hclosed.
Qed.

Lemma indexed_from_ok {A} (f : A → value) h i l :
  Forall (λ x, value_ok h (f x)) l → props_ok h (indexed_from f i l).
Proof.
  intros Hl k v (x & Hx & ->)%indexed_from_lookup.
  by eapply Forall_forall in Hl.
Qed.

Lemma string_props_ok h s : props_ok h (string_props s).
Proof. apply indexed_from_ok, Forall_forall. by intros x _. Qed.

Lemma get_own_ok h own len k : props_ok h own → value_ok h (get_own own len k).
Proof.
  intros Hown. unfold get_own. destruct (own !! k) as [w|] eqn:Hk.
  - by eapply Hown.
  - destruct len; [by case_bool_decide|done].
Qed.

Lemma sound_ret h0 v : value_ok h0 v → sound h0 value_ok (ret v).
Proof.
  intros Hv h Hsub Hclosed. cbn. split_and!; [done..|].
  intros a [= <-]. by eapply value_ok_mono.
Qed.

Lemma sound_weaken {A} h0 h1 (P : heap → A → Prop) m :
  h0 ⊆ h1 → sound h0 P m → sound h1 P m.
Proof. intros Hsub Hm h Hh. apply Hm. by etrans. Qed.

Lemma sound_bind {A B} h0 (P : heap → A → Prop) (Q : heap → B → Prop)
    (m : M A) (f : A → M B) :
  sound h0 P m →
  (∀ h1 a, h0 ⊆ h1 → P h1 a → sound h1 Q (f a)) →
  sound h0 Q (bind m f).
Proof.
  intros Hm Hf h Hsub Hclosed. unfold bind.
  destruct (Hm h Hsub Hclosed) as (Hsub1 & Hclosed1 & HP).
  destruct (m h) as [h1 [a|e]]; cbn in *; [|done].
  destruct (Hf h1 a (transitivity Hsub Hsub1) (HP a eq_refl) h1
              (reflexivity _) Hclosed1) as (Hsub2 & Hclosed2 & HQ).
  split_and!; [by etrans|done..].
Qed.

Ltac sound_read :=
  split_and!; [done..|];
  first [ done | intros ? [= <-] ].

Lemma sound_get_prop h0 v k : sound h0 value_ok (get_prop v k).
Proof.
  intros h _ Hclosed.
  destruct v as [| | | |s|l]; cbn; try (sound_read; done).
  - sound_read. apply get_own_ok, string_props_ok.
  - destruct (h !! l) as [[props|elems]|] eqn:Hl; cbn;
      sound_read; apply get_own_ok.
    + exact (Hclosed l _ Hl).
    + apply indexed_from_ok. exact (Hclosed l _ Hl).
Qed.

Lemma sound_own_enumerable h0 v : sound h0 props_ok (own_enumerable v).
Proof.
  intros h _ Hclosed.
  destruct v as [| | | |s|l]; cbn;
    try (sound_read; apply map_Forall_empty).
  - sound_read. apply string_props_ok.
  - destruct (h !! l) as [[props|elems]|] eqn:Hl; cbn; sound_read.
    + exact (Hclosed l _ Hl).
    + apply indexed_from_ok. exact (Hclosed l _ Hl).
Qed.

Lemma sound_hasOwnProperty h0 v k : sound h0 (λ _ _, True) (hasOwnProperty v k).
Proof.
  intros h _ Hclosed. pose proof (grows_hasOwnProperty v k h) as Hg.
  destruct v as [| | | | |l]; cbn in *; try (split_and!; done).
  destruct (h !! l) as [[props|elems]|]; cbn; try (split_and!; done).
  destruct (props !! "hasOwnProperty"); split_and!; done.
Qed.

Lemma sound_alloc h0 props :
  props_ok h0 props → sound h0 value_ok (alloc (CObj props)).
Proof.
  intros Hp h Hsub Hclosed. cbn.
  assert (h !! fresh (dom h) = None) as Hl by apply not_elem_of_dom, is_fresh.
  split_and!.
  - by apply insert_subseteq.
  - apply closed_insert; [done..|]. by eapply props_ok_mono.
  - intros a [= <-]. cbn. by rewrite lookup_insert_eq.
Qed.

Lemma sound_fill h0 ms :
  Forall (member_sound h0) ms →
  ∀ h1 acc, h0 ⊆ h1 → props_ok h1 acc → sound h1 props_ok (fill ms acc).
Proof.
  induction 1 as [|mb ms Hmb _ IH]; intros h1 acc Hsub Hacc.
  - intros h Hh Hclosed. cbn. split_and!; [done..|].
    intros a [= <-]. by eapply props_ok_mono.
  - destruct mb as [k e|e]; cbn in *.
    + eapply sound_bind; [by eapply sound_weaken|].
      intros h2 v H12 Hv. apply IH; [by etrans|].
      apply map_Forall_insert_2; [done|]. by eapply props_ok_mono.
    + eapply sound_bind; [by eapply sound_weaken|].
      intros h2 v H12 Hv.
      eapply sound_bind; [apply sound_own_enumerable|].
      intros h3 own H23 Hown. apply IH; [by do 2 (etrans; [|done])|].
      apply map_Forall_union_2; [done|].
      eapply props_ok_mono; [|done]. by etrans.
Qed.

Lemma sound_object h0 ms :
  Forall (member_sound h0) ms → sound h0 value_ok (object ms).
Proof.
  intros Hms. eapply sound_bind.
  - eapply sound_fill; [done..|]. apply map_Forall_empty.
  - intros h1 props _ Hprops. by apply sound_alloc.
Qed.

Ltac solve_sound :=
  repeat first
    [ apply sound_object
    | apply sound_get_prop
    | match goal with
      | |- Forall (member_sound _) [] => constructor
      | |- Forall (member_sound _) (_ :: _) =>
          constructor; [cbn [member_sound]|]
      end
    | by apply sound_ret ].

(** The default merge, called with values that do not dangle in a store
    without dangling references, leaves such a store and returns such a
    value. *)
Lemma merge_keeps_closed d spec h :
  closed h → value_ok h d → value_ok h spec →
  closed (Private.updateVegaLiteDefaults d spec h).1
  ∧ ∀ r, (Private.updateVegaLiteDefaults d spec h).2 = Ok r →
         value_ok (Private.updateVegaLiteDefaults d spec h).1 r.
Proof.
  intros Hclosed Hd Hspec.
  assert (sound h value_ok (Private.updateVegaLiteDefaults d spec)) as H.
  { unfold Private.updateVegaLiteDefaults.
    eapply sound_bind; [apply sound_hasOwnProperty|].
    intros h1 has_config E1 _.
    pose proof (value_ok_mono _ _ _ E1 Hd) as Hd1.
    pose proof (value_ok_mono _ _ _ E1 Hspec) as Hspec1.
    destruct has_config; [|solve_sound].
    eapply sound_bind; [apply sound_get_prop|].
    intros h2 config E2 _.
    pose proof (value_ok_mono _ _ _ E2 Hd1) as Hd2.
    pose proof (value_ok_mono _ _ _ E2 Hspec1) as Hspec2.
    eapply sound_bind; [apply sound_hasOwnProperty|].
    intros h3 has_cell E3 _.
    pose proof (value_ok_mono _ _ _ E3 Hd2) as Hd3.
    pose proof (value_ok_mono _ _ _ E3 Hspec2) as Hspec3.
    destruct has_cell; solve_sound.
    eapply sound_bind; [apply sound_get_prop|].
    intros h4 config' _ _. apply sound_get_prop. }
  destruct (H h (reflexivity _) Hclosed) as (_ & ? & ?). done.
Qed.

(** The load of the module keeps a store without dangling references. *)
Lemma load_keeps_closed h : closed h → closed (Private.load h).1.
Proof.
  intros Hclosed.
  assert (sound h value_ok Private.load) as H.
  { unfold Private.load. solve_sound. }
  by destruct (H h (reflexivity _) Hclosed) as (_ & ? & _).
Qed.

(** ** More on the renderer factory *)

Lemma indexOf_from_found (l : list string) (x : string) (i : Z) :
  0 ≤ i → (indexOf_from i l x = -1 ↔ x ∉ l).
Proof.
  revert i. induction l as [|y l IH]; intros i Hi; cbn.
  - split; [intros _; apply not_elem_of_nil|done].
  - destruct (String.eqb_spec y x) as [->|Hne].
    + split; [lia|]. intros Hx. destruct Hx. left.
    + rewrite IH by lia. rewrite not_elem_of_cons.
      split; [by intros ?|by intros [_ ?]].
Qed.

(** X1: whatever the factory's [mimeTypes] array holds, [canCreateRenderer]
    answers [true] exactly when the requested MIME type is an element of
    it. *)
Theorem canCreateRenderer_is_membership (this : VegaRendererFactory)
    (options : IRendererOptions) :
  canCreateRenderer this options = true ↔
  Vega.mimeType options ∈ mimeTypes this.
Proof.
  unfold canCreateRenderer, indexOf.
  rewrite negb_true_iff, Z.eqb_neq, indexOf_from_found by done.
  split; [apply dec_stable|]. by intros H ?.
Qed.

(** X2: behind the guard, the unrecognised case of the constructor does
    not arise.  When [canCreateRenderer] accepts the options, the view
    that [createRenderer] builds is bound to the requested MIME type, and
    either that is the Vega type and the view has mode ['vega'] and class
    [jp-RenderedVega], or it is the Vega-Lite type and the view has mode
    ['vega-lite'] and class [jp-RenderedVegaLite]; in both cases after the
    class [p-Widget] of the base class and the common class, and nothing
    else. *)
Theorem createRenderer_after_guard (n : Node) (options : IRendererOptions) :
  canCreateRenderer rendererFactory options = true →
  _mimeType (createRenderer rendererFactory n options) = Vega.mimeType options
  ∧ node (createRenderer rendererFactory n options) = n
  ∧ ((Vega.mimeType options = VEGA_MIME_TYPE
      ∧ _mode (createRenderer rendererFactory n options) = "vega"
      ∧ classList (createRenderer rendererFactory n options)
        = ["p-Widget"; "jp-RenderedVegaCommon"; "jp-RenderedVega"])
     ∨ (Vega.mimeType options = VEGALITE_MIME_TYPE
        ∧ _mode (createRenderer rendererFactory n options) = "vega-lite"
        ∧ classList (createRenderer rendererFactory n options)
          = ["p-Widget"; "jp-RenderedVegaCommon"; "jp-RenderedVegaLite"])).
Proof.
  unfold canCreateRenderer. rewrite indexOf_mimeTypes.
  unfold createRenderer, constructor.
  destruct (String.eqb_spec VEGA_MIME_TYPE (Vega.mimeType options)) as [E|N].
  - intros _. rewrite <-E. cbn. split_and!; [done..|]. by left.
  - destruct (String.eqb_spec VEGALITE_MIME_TYPE (Vega.mimeType options))
      as [E|N']; [|done].
    intros _. rewrite <-E. cbn. split_and!; [done..|]. by right.
Qed.

(** X2 at the Vega-Lite MIME type. *)
Lemma createRenderer_after_guard_witness :
  canCreateRenderer rendererFactory
    {| Vega.mimeType := VEGALITE_MIME_TYPE |} = true
  ∧ _mode (createRenderer rendererFactory (DomNode 7)
             {| Vega.mimeType := VEGALITE_MIME_TYPE |}) = "vega-lite"
  ∧ classList (createRenderer rendererFactory (DomNode 7)
                 {| Vega.mimeType := VEGALITE_MIME_TYPE |})
    = ["p-Widget"; "jp-RenderedVegaCommon"; "jp-RenderedVegaLite"].
Proof.
  split; [reflexivity|].
  destruct (createRenderer_after_guard (DomNode 7)
              {| Vega.mimeType := VEGALITE_MIME_TYPE |} eq_refl)
    as (_ & _ & [(E & _)|(_ & Hmode & Hclasses)]);
    [discriminate E|by split].
Defined.

(** X3: the registration and the factory agree.  Every extension names a
    MIME type that its own factory accepts, and every MIME type that the
    factory accepts is the one of an extension; an extension is the
    default only for file extensions that it lists; and no file extension
    is the default of two extensions. *)
Theorem extensions_agree_with_factory :
  (∀ e, e ∈ Registration.extensions →
     canCreateRenderer (Registration.rendererFactory e)
       {| Vega.mimeType := Registration.mimeType e |} = true)
  ∧ (∀ options, canCreateRenderer rendererFactory options = true →
       ∃ e, e ∈ Registration.extensions
            ∧ Registration.mimeType e = Vega.mimeType options)
  ∧ (∀ e, e ∈ Registration.extensions →
       Registration.defaultFor (Registration.documentWidgetFactoryOptions e)
       ⊆ Registration.fileExtensions
           (Registration.documentWidgetFactoryOptions e))
  ∧ (∀ e1 e2 x, e1 ∈ Registration.extensions →
       e2 ∈ Registration.extensions →
       x ∈ Registration.defaultFor
             (Registration.documentWidgetFactoryOptions e1) →
       x ∈ Registration.defaultFor
             (Registration.documentWidgetFactoryOptions e2) →
       e1 = e2).
Proof.
  split_and!.
  - intros e [->|[->|[]%elem_of_nil]%elem_of_cons]%elem_of_cons; reflexivity.
  - intros options. unfold canCreateRenderer. rewrite indexOf_mimeTypes.
    destruct (String.eqb_spec VEGA_MIME_TYPE (Vega.mimeType options))
      as [E|N].
    { intros _. eexists. split; [by left|exact E]. }
    destruct (String.eqb_spec VEGALITE_MIME_TYPE (Vega.mimeType options))
      as [E|N']; [|done].
    intros _. eexists. split; [right; by left|exact E].
  - intros e [->|[->|[]%elem_of_nil]%elem_of_cons]%elem_of_cons x; cbn;
      rewrite !elem_of_cons; tauto.
  - intros e1 e2 x
      [->|[->|[]%elem_of_nil]%elem_of_cons]%elem_of_cons
      [->|[->|[]%elem_of_nil]%elem_of_cons]%elem_of_cons; cbn;
      try done; rewrite !elem_of_cons, !elem_of_nil;
      intros [->|[->|[]]] [?|[?|[]]]; discriminate.
Qed.

(** ** More on rendering *)

(** In vega-lite mode, rendering is the default merge on the payload,
    followed by the call of the embedder. *)
Lemma renderModel_lite_returns d this model h h' v :
  _mode this = "vega-lite" →
  Private.updateVegaLiteDefaults d
    (get_own (data model) None (_mimeType this)) h = (h', Ok v) →
  renderModel d this model h
  = (h', Ok {| target := node this;
               embedSpec := {| mode := "vega-lite"; spec := v |};
               callback := λ error result, resolve VUndefined |}).
Proof.
  intros Hmode E. unfold renderModel. rewrite Hmode. cbn.
  by erewrite bind_ok.
Qed.

Lemma renderModel_lite_throws d this model h h' e :
  _mode this = "vega-lite" →
  Private.updateVegaLiteDefaults d
    (get_own (data model) None (_mimeType this)) h = (h', Throw e) →
  renderModel d this model h = (h', Throw e).
Proof.
  intros Hmode E. unfold renderModel, bind. rewrite Hmode. cbn.
  by rewrite E.
Qed.

Lemma grows_renderModel d this model : grows (renderModel d this model).
Proof.
  unfold renderModel. apply grows_bind.
  - destruct (String.eqb _ _); [apply merge_grows|apply grows_ret].
  - intros v. apply grows_ret.
Qed.

(** X4: a view in vega-lite mode throws a [TypeError] out of
    [renderModel], before any promise is made, when the model holds [null]
    under the view's MIME type, and, for a view bound to the Vega-Lite
    MIME type, when the model holds nothing under it: the embedder is not
    called, and the store is as before.  (In vega mode the same models
    reach the embedder, with [null] or [undefined] as specification.) *)
Theorem renderModel_lite_without_payload (d : value) (this : RenderedVega)
    (model : IMimeModel) (h : heap) :
  _mode this = "vega-lite" →
  data model !! _mimeType this = Some VNull
  ∨ (_mimeType this = VEGALITE_MIME_TYPE
     ∧ data model !! VEGALITE_MIME_TYPE = None) →
  renderModel d this model h = (h, Throw TypeError).
Proof.
  intros Hmode Hdata. apply renderModel_lite_throws; [done|].
  unfold get_own. destruct Hdata as [-> | [-> ->]]; done.
Qed.

(** X4 at a view created for the Vega-Lite MIME type and an empty
    bundle. *)
Lemma renderModel_lite_without_payload_witness :
  _mode Scenario.lite_view = "vega-lite"
  ∧ (data Cases.empty_model !! _mimeType Scenario.lite_view = Some VNull
     ∨ (_mimeType Scenario.lite_view = VEGALITE_MIME_TYPE
        ∧ data Cases.empty_model !! VEGALITE_MIME_TYPE = None))
  ∧ renderModel (VRef 1) Scenario.lite_view Cases.empty_model
      Scenario.store_mark_bar
    = (Scenario.store_mark_bar, Throw TypeError).
Proof.
  assert (_mode Scenario.lite_view = "vega-lite") as H1 by reflexivity.
  assert (data Cases.empty_model !! _mimeType Scenario.lite_view
          = Some VNull
          ∨ (_mimeType Scenario.lite_view = VEGALITE_MIME_TYPE
             ∧ data Cases.empty_model !! VEGALITE_MIME_TYPE = None)) as H2
    by (right; split; reflexivity).
  split_and!; [done..|].
  exact (renderModel_lite_without_payload (VRef 1) Scenario.lite_view
           Cases.empty_model Scenario.store_mark_bar H1 H2).
Defined.

(** Rendering, in vega-lite mode, an object that owns neither [config] nor
    [hasOwnProperty]. *)
Lemma renderModel_lite_no_config d s this model h props :
  _mode this = "vega-lite" →
  data model !! _mimeType this = Some (VRef s) →
  h !! s = Some (CObj props) →
  props !! "hasOwnProperty" = None →
  props !! "config" = None →
  ∃ h' r c,
    renderModel d this model h
    = (h', Ok {| target := node this;
                 embedSpec := {| mode := "vega-lite"; spec := VRef r |};
                 callback := λ error result, resolve VUndefined |})
    ∧ h ⊆ h'
    ∧ h' !! r = Some (CObj (<["config" := VRef c]> props))
    ∧ h' !! c = Some (CObj {[ "cell" := d ]})
    ∧ h !! r = None ∧ h !! c = None.
Proof.
  intros Hmode Hdata Hs Hshadow Hcfg.
  destruct (wp_merge_without_config d s h props)
    as (h' & v & E & Hsub & r & c & -> & Hr & Hc & Hfr & Hfc); [done..|].
  exists h', r, c. split_and!; try done.
  apply renderModel_lite_returns; [done|].
  unfold get_own. by rewrite Hdata.
Qed.

(** X5: in vega-lite mode, when the model's payload is an object that owns
    neither a [config] key nor a key named [hasOwnProperty], the embedder
    is called on the view's node with mode ['vega-lite'] and a new object:
    the payload's keys with their values, and a [config] whose [cell] is
    the default cell, of width 400 and height 400/1.5.  The payload itself
    is as before. *)
Theorem renderModel_lite_injects_defaults (d : value) (s : loc)
    (this : RenderedVega) (model : IMimeModel) (h : heap)
    (props : gmap string value) :
  _mode this = "vega-lite" →
  data model !! _mimeType this = Some (VRef s) →
  loaded d h →
  h !! s = Some (CObj props) →
  props !! "hasOwnProperty" = None →
  props !! "config" = None →
  ∃ h' call,
    renderModel d this model h = (h', Ok call)
    ∧ target call = node this
    ∧ mode (embedSpec call) = "vega-lite"
    ∧ Read.path h' (spec (embedSpec call)) ["config"; "cell"; "width"]
      = Some (VNum 400%float)
    ∧ Read.path h' (spec (embedSpec call)) ["config"; "cell"; "height"]
      = Some (VNum (400 / 1.5)%float)
    ∧ Read.keys h' <$> Read.path h' (spec (embedSpec call)) ["config"]
      = Some ["cell"]
    ∧ (∀ k v, props !! k = Some v →
              Read.own h' (spec (embedSpec call)) k = Some v)
    ∧ (∀ k, k ≠ "config" → props !! k = None →
            Read.own h' (spec (embedSpec call)) k = None)
    ∧ spec (embedSpec call) ≠ VRef s
    ∧ h' !! s = Some (CObj props).
Proof.
  intros Hmode Hdata (dl & -> & Hd) Hs Hshadow Hcfg.
  destruct (renderModel_lite_no_config (VRef dl) s this model h props)
    as (h' & r & c & E & Hsub & Hr & Hc & Hfr & Hfc); [done..|].
  pose proof (lookup_weaken _ _ _ _ Hd Hsub) as Hd'.
  eexists h', _. split; [exact E|]. cbn [target embedSpec mode spec].
  split_and!; try done.
  - cbn. rewrite Hr, lookup_insert_eq. cbn. rewrite Hc, lookup_singleton_eq.
    cbn. by rewrite Hd'.
  - cbn. rewrite Hr, lookup_insert_eq. cbn. rewrite Hc, lookup_singleton_eq.
    cbn. by rewrite Hd'.
  - cbn. rewrite Hr, lookup_insert_eq. cbn. rewrite Hc.
    by rewrite map_to_list_singleton.
  - intros k v Hk. cbn. rewrite Hr. rewrite lookup_insert_ne; [done|].
    intros <-. by rewrite Hcfg in Hk.
  - intros k Hne Hk. cbn. rewrite Hr. by rewrite lookup_insert_ne.
  - intros [= ->]. by rewrite Hs in Hfr.
  - by eapply lookup_weaken.
Qed.

(** X5 at a view created for the Vega-Lite MIME type and the payload
    [{"mark": "bar"}]. *)
Lemma renderModel_lite_injects_defaults_witness :
  _mode Scenario.lite_view = "vega-lite"
  ∧ data Scenario.lite_model !! _mimeType Scenario.lite_view
    = Some (VRef 2)
  ∧ loaded (VRef 1) Scenario.store_mark_bar
  ∧ Scenario.store_mark_bar !! 2%positive
    = Some (CObj Scenario.mark_bar_props)
  ∧ Scenario.mark_bar_props !! "hasOwnProperty" = None
  ∧ Scenario.mark_bar_props !! "config" = None
  ∧ ∃ h' call,
      renderModel (VRef 1) Scenario.lite_view Scenario.lite_model
        Scenario.store_mark_bar = (h', Ok call)
      ∧ mode (embedSpec call) = "vega-lite"
      ∧ Read.path h' (spec (embedSpec call)) ["config"; "cell"; "width"]
        = Some (VNum 400%float)
      ∧ Read.own h' (spec (embedSpec call)) "mark" = Some (VStr "bar").
Proof.
  assert (_mode Scenario.lite_view = "vega-lite") as H1 by reflexivity.
  assert (data Scenario.lite_model !! _mimeType Scenario.lite_view
          = Some (VRef 2)) as H2 by reflexivity.
  assert (loaded (VRef 1) Scenario.store_mark_bar) as H3
    by (exists 1%positive; split; reflexivity).
  assert (Scenario.store_mark_bar !! 2%positive
          = Some (CObj Scenario.mark_bar_props)) as H4 by reflexivity.
  assert (Scenario.mark_bar_props !! "hasOwnProperty" = None) as H5
    by reflexivity.
  assert (Scenario.mark_bar_props !! "config" = None) as H6 by reflexivity.
  split_and!; [done..|].
  destruct (renderModel_lite_injects_defaults (VRef 1) 2%positive
              Scenario.lite_view Scenario.lite_model Scenario.store_mark_bar
              Scenario.mark_bar_props H1 H2 H3 H4 H5 H6)
    as (h' & call & E & _ & Hm & Hw & _ & _ & Hkeep & _).
  exists h', call. split_and!; [done..|].
  by apply Hkeep.
Defined.

(** X6: rendering changes no object of the store, in either mode and also
    when it throws; and every call of the embedder that it makes is on the
    view's own node, tagged with the view's own mode. *)
Theorem renderModel_does_not_mutate (d : value) (this : RenderedVega)
    (model : IMimeModel) (h : heap) :
  (∀ l c, h !! l = Some c → (renderModel d this model h).1 !! l = Some c)
  ∧ (∀ call, (renderModel d this model h).2 = Ok call →
       target call = node this ∧ mode (embedSpec call) = _mode this).
Proof.
  split.
  - intros l c Hl. eapply lookup_weaken; [exact Hl|apply grows_renderModel].
  - intros call. unfold renderModel, bind.
    destruct (if String.eqb (_mode this) "vega-lite" then _ else _)
      as [h1 [v|e]]; [|done].
    cbn. by intros [= <-].
Qed.

Lemma rejected_stays call reason evs :
  callback call = (λ error result, resolve VUndefined) →
  foldl (promise_step call) (Rejected reason) evs = Rejected reason.
Proof.
  intros Hcb. induction evs as [|ev evs IH]; [done|].
  cbn. destruct ev as [error result|e]; cbn; [rewrite Hcb|]; exact IH.
Qed.

(** X7: the first thing the embedder does settles the promise for good.
    Until then the promise is pending; if the embedder first calls back,
    the promise is resolved with [undefined], and if it first throws out
    of the executor, the promise is rejected with what was thrown; in both
    cases nothing that follows, later callbacks included, changes the
    promise. *)
Theorem renderModel_first_event_settles (d : value) (this : RenderedVega)
    (model : IMimeModel) (h h' : heap) (call : EmbedCall) :
  renderModel d this model h = (h', Ok call) →
  settle call [] = Pending
  ∧ (∀ error result rest,
       settle call (CallsBack error result :: rest) = Resolved VUndefined)
  ∧ (∀ e rest, settle call (ThrowsFromExecutor e :: rest) = Rejected e).
Proof.
  intros E. pose proof (renderModel_callback _ _ _ _ _ _ E) as Hcb.
  split_and!; [done| |].
  - intros error result rest. unfold settle. cbn. rewrite Hcb. cbn.
    by apply settled_stays.
  - intros e rest. unfold settle. cbn. by apply rejected_stays.
Qed.

(** X7 at the rendering of [{"mark": "bar"}], with an embedder that throws
    and calls back afterwards. *)
Lemma renderModel_first_event_settles_witness :
  renderModel (VRef 1) Scenario.lite_view Scenario.lite_model
    Scenario.store_mark_bar
  = (Scenario.lite_run.1, Ok Scenario.lite_call)
  ∧ settle Scenario.lite_call
      [ThrowsFromExecutor (VStr "no element"); CallsBack VNull VNull]
    = Rejected (VStr "no element").
Proof.
  assert (renderModel (VRef 1) Scenario.lite_view Scenario.lite_model
            Scenario.store_mark_bar
          = (Scenario.lite_run.1, Ok Scenario.lite_call)) as E
    by (vm_compute; reflexivity).
  split; [exact E|].
  destruct (renderModel_first_event_settles (VRef 1) Scenario.lite_view
              Scenario.lite_model Scenario.store_mark_bar
              Scenario.lite_run.1 Scenario.lite_call E) as (_ & _ & H).
  apply H.
Defined.

(** X8: rendering the same model again, in vega-lite mode, works on the
    payload as it was and hands the embedder an equal specification: for a
    payload that owns neither [config] nor [hasOwnProperty], both calls
    reach the embedder, each with an object of its own, and the two
    objects hold the payload's keys and a [config] of their own whose
    [cell] is the one default cell object. *)
Theorem renderModel_twice (d : value) (s : loc) (this : RenderedVega)
    (model : IMimeModel) (h : heap) (props : gmap string value) :
  _mode this = "vega-lite" →
  data model !! _mimeType this = Some (VRef s) →
  h !! s = Some (CObj props) →
  props !! "hasOwnProperty" = None →
  props !! "config" = None →
  ∃ h1 call1 h2 call2 r1 r2 c1 c2,
    renderModel d this model h = (h1, Ok call1)
    ∧ renderModel d this model h1 = (h2, Ok call2)
    ∧ spec (embedSpec call1) = VRef r1
    ∧ spec (embedSpec call2) = VRef r2
    ∧ r1 ≠ r2 ∧ c1 ≠ c2
    ∧ h2 !! r1 = Some (CObj (<["config" := VRef c1]> props))
    ∧ h2 !! r2 = Some (CObj (<["config" := VRef c2]> props))
    ∧ h2 !! c1 = Some (CObj {[ "cell" := d ]})
    ∧ h2 !! c2 = Some (CObj {[ "cell" := d ]})
    ∧ h2 !! s = Some (CObj props).
Proof.
  intros Hmode Hdata Hs Hshadow Hcfg.
  destruct (renderModel_lite_no_config d s this model h props)
    as (h1 & r1 & c1 & E1 & Hsub1 & Hr1 & Hc1 & _ & _); [done..|].
  pose proof (lookup_weaken _ _ _ _ Hs Hsub1) as Hs1.
  destruct (renderModel_lite_no_config d s this model h1 props)
    as (h2 & r2 & c2 & E2 & Hsub2 & Hr2 & Hc2 & Hfr2 & Hfc2); [done..|].
  eexists h1, _, h2, _, r1, r2, c1, c2.
  split; [exact E1|]. split; [exact E2|]. cbn [embedSpec spec].
  split_and!; try done.
  - intros ->. by rewrite Hr1 in Hfr2.
  - intros ->. by rewrite Hc1 in Hfc2.
  - by eapply lookup_weaken.
  - by eapply lookup_weaken.
  - by eapply lookup_weaken.
Qed.

(** X8 at the payload [{"mark": "bar"}]. *)
Lemma renderModel_twice_witness :
  _mode Scenario.lite_view = "vega-lite"
  ∧ data Scenario.lite_model !! _mimeType Scenario.lite_view
    = Some (VRef 2)
  ∧ Scenario.store_mark_bar !! 2%positive
    = Some (CObj Scenario.mark_bar_props)
  ∧ Scenario.mark_bar_props !! "hasOwnProperty" = None
  ∧ Scenario.mark_bar_props !! "config" = None
  ∧ ∃ h1 call1 h2 call2,
      renderModel (VRef 1) Scenario.lite_view Scenario.lite_model
        Scenario.store_mark_bar = (h1, Ok call1)
      ∧ renderModel (VRef 1) Scenario.lite_view Scenario.lite_model h1
        = (h2, Ok call2)
      ∧ spec (embedSpec call1) ≠ spec (embedSpec call2)
      ∧ h2 !! 2%positive = Some (CObj Scenario.mark_bar_props).
Proof.
  assert (_mode Scenario.lite_view = "vega-lite") as H1 by reflexivity.
  assert (data Scenario.lite_model !! _mimeType Scenario.lite_view
          = Some (VRef 2)) as H2 by reflexivity.
  assert (Scenario.store_mark_bar !! 2%positive
          = Some (CObj Scenario.mark_bar_props)) as H3 by reflexivity.
  assert (Scenario.mark_bar_props !! "hasOwnProperty" = None) as H4
    by reflexivity.
  assert (Scenario.mark_bar_props !! "config" = None) as H5 by reflexivity.
  split_and!; [done..|].
  destruct (renderModel_twice (VRef 1) 2%positive Scenario.lite_view
              Scenario.lite_model Scenario.store_mark_bar
              Scenario.mark_bar_props H1 H2 H3 H4 H5)
    as (h1 & call1 & h2 & call2 & r1 & r2 & c1 & c2 & E1 & E2 & S1 & S2
        & Hne & _ & _ & _ & _ & _ & Hs).
  exists h1, call1, h2, call2. split_and!; [done..| |done].
  rewrite S1, S2. by intros [= ?].
Defined.

(** ** More on the default merge *)

Import Cases.

Lemma hasOwnProperty_throws h v k :
  value_ok h v → ¬ inherits_hasOwnProperty h v →
  hasOwnProperty v k h = (h, Throw TypeError).
Proof.
  destruct v as [| | | | |l]; cbn; try done.
  intros [c Hl] Hn. rewrite Hl in *. destruct c as [props|elems]; [|done].
  destruct (props !! "hasOwnProperty"); done.
Qed.

(** X9: when the default merge throws.  For a specification object, in a
    store without dangling references, the merge throws a [TypeError], and
    leaves the store as it is, exactly when the specification owns a key
    named [hasOwnProperty], or owns a [config] whose value cannot be asked
    for its own properties: [null], or an object that itself owns a key
    named [hasOwnProperty].  In every other case it returns a new
    object. *)
Theorem updateVegaLiteDefaults_throws_exactly (d : value) (s : loc)
    (h : heap) (props : gmap string value) :
  closed h → value_ok h d →
  h !! s = Some (CObj props) →
  (Private.updateVegaLiteDefaults d (VRef s) h = (h, Throw TypeError) ↔
     is_Some (props !! "hasOwnProperty")
     ∨ ∃ cfg, props !! "config" = Some cfg
              ∧ ¬ inherits_hasOwnProperty h cfg)
  ∧ ((Private.updateVegaLiteDefaults d (VRef s) h).2 ≠ Throw TypeError →
       ∃ h' r, Private.updateVegaLiteDefaults d (VRef s) h
               = (h', Ok (VRef r))
               ∧ h !! r = None).
Proof.
  intros Hclosed Hd Hs.
  destruct (props !! "hasOwnProperty") as [w|] eqn:Hshadow.
  { assert (Private.updateVegaLiteDefaults d (VRef s) h
            = (h, Throw TypeError)) as E.
    { unfold Private.updateVegaLiteDefaults, bind. cbn.
      by rewrite Hs, Hshadow. }
    rewrite E. split; [|done]. split; [|done]. intros _. left. by eexists. }
  destruct (props !! "config") as [cfg|] eqn:Hcfg.
  - destruct (decide (inherits_hasOwnProperty h cfg)) as [Hinh|Hinh].
    + destruct (wp_merge_with_config d s h props cfg)
        as (own & _ & h' & v & E & _ & r & -> & _ & Hfr); [done..|].
      rewrite E. split.
      * split; [done|]. intros [[? [=]]|(cfg' & [= <-] & Hn)]. done.
      * intros _. by exists h', r.
    + assert (Private.updateVegaLiteDefaults d (VRef s) h
              = (h, Throw TypeError)) as E.
      { unfold Private.updateVegaLiteDefaults.
        erewrite bind_ok by (by apply run_hasOwnProperty_obj).
        rewrite Hcfg, bool_decide_eq_true_2 by done.
        erewrite bind_ok by (by eapply run_get_prop_obj).
        unfold bind. rewrite hasOwnProperty_throws; [done| |done].
        exact (Hclosed s _ Hs "config" cfg Hcfg). }
      rewrite E. split; [|done]. split; [|done].
      intros _. right. by exists cfg.
  - destruct (wp_merge_without_config d s h props)
      as (h' & v & E & _ & r & c & -> & _ & _ & Hfr & _); [done..|].
    rewrite E. split.
    + split; [done|]. by intros [[? [=]]|(cfg' & [=] & _)].
    + intros _. by exists h', r.
Qed.

(** X9 at [{"config": null}]. *)
Lemma updateVegaLiteDefaults_throws_exactly_witness :
  closed Cases.store_null_config
  ∧ value_ok Cases.store_null_config (VRef 1)
  ∧ Cases.store_null_config !! 2%positive
    = Some (CObj Cases.null_config_props)
  ∧ Private.updateVegaLiteDefaults (VRef 1) (VRef 2)
      Cases.store_null_config
    = (Cases.store_null_config, Throw TypeError).
Proof.
  assert (closed Cases.store_null_config) as H1
    by (apply (bool_decide_unpack _); vm_compute; exact I).
  assert (value_ok Cases.store_null_config (VRef 1)) as H2
    by (apply (bool_decide_unpack _); vm_compute; exact I).
  assert (Cases.store_null_config !! 2%positive
          = Some (CObj Cases.null_config_props)) as H3 by reflexivity.
  split_and!; [done..|].
  destruct (updateVegaLiteDefaults_throws_exactly (VRef 1) 2%positive
              Cases.store_null_config Cases.null_config_props H1 H2 H3)
    as [Hiff _].
  apply Hiff. right. exists VNull. split; [reflexivity|]. cbn. tauto.
Defined.

(** X10: what the default merge returns for a specification that owns
    [config].  Under the conditions of X9 for a return, the new object
    owns the keys of the specification, each with the value it has there,
    [config] included; under every key that the specification does not
    own, it owns what the [config] value owns under that key, copied to
    the top level; and it owns nothing else.  The synthesized [config],
    with the merged cell, is not part of the result. *)
Theorem updateVegaLiteDefaults_with_config_exactly (d : value) (s : loc)
    (h : heap) (props : gmap string value) (cfg : value) :
  closed h → value_ok h d →
  h !! s = Some (CObj props) →
  props !! "hasOwnProperty" = None →
  props !! "config" = Some cfg →
  inherits_hasOwnProperty h cfg →
  ∃ h' r own,
    Private.updateVegaLiteDefaults d (VRef s) h = (h', Ok (VRef r))
    ∧ own_enumerable cfg h = (h, Ok own)
    ∧ Read.path h' (VRef r) ["config"] = Some cfg
    ∧ ∀ k, Read.own h' (VRef r) k
           = match props !! k with
             | Some v => Some v
             | None => own !! k
             end.
Proof.
  intros Hclosed Hd Hs Hshadow Hcfg Hinh.
  destruct (merge_with_config_exact d s h props cfg)
    as (h' & r & own & E & Eown & Hr & _ & _); [done..|].
  exists h', r, own. split_and!; [done..| |].
  - cbn. rewrite Hr. by rewrite (lookup_union_Some_l _ _ _ _ Hcfg).
  - intros k. cbn. rewrite Hr, lookup_union.
    destruct (props !! k), (own !! k); done.
Qed.

(** X10 at [{"config": {"other": "x"}}]: the returned object owns
    [other] at the top level. *)
Lemma updateVegaLiteDefaults_with_config_exactly_witness :
  closed Scenario.store_config_other
  ∧ value_ok Scenario.store_config_other (VRef 1)
  ∧ Scenario.store_config_other !! 3%positive
    = Some (CObj Scenario.config_other_props)
  ∧ Scenario.config_other_props !! "hasOwnProperty" = None
  ∧ Scenario.config_other_props !! "config" = Some (VRef 2)
  ∧ inherits_hasOwnProperty Scenario.store_config_other (VRef 2)
  ∧ ∃ h' r,
      Private.updateVegaLiteDefaults (VRef 1) (VRef 3)
        Scenario.store_config_other = (h', Ok (VRef r))
      ∧ Read.own h' (VRef r) "config" = Some (VRef 2)
      ∧ Read.own h' (VRef r) "other" = Some (VStr "x")
      ∧ Read.own h' (VRef r) "cell" = None.
Proof.
  assert (closed Scenario.store_config_other) as H1
    by (apply (bool_decide_unpack _); vm_compute; exact I).
  assert (value_ok Scenario.store_config_other (VRef 1)) as H2
    by (apply (bool_decide_unpack _); vm_compute; exact I).
  assert (Scenario.store_config_other !! 3%positive
          = Some (CObj Scenario.config_other_props)) as H3 by reflexivity.
  assert (Scenario.config_other_props !! "hasOwnProperty" = None) as H4
    by reflexivity.
  assert (Scenario.config_other_props !! "config" = Some (VRef 2)) as H5
    by reflexivity.
  assert (inherits_hasOwnProperty Scenario.store_config_other (VRef 2)) as H6
    by (vm_compute; reflexivity).
  split_and!; [done..|].
  destruct (updateVegaLiteDefaults_with_config_exactly (VRef 1) 3%positive
              Scenario.store_config_other Scenario.config_other_props
              (VRef 2) H1 H2 H3 H4 H5 H6)
    as (h' & r & own & E & Eown & _ & Hall).
  assert (own = {[ "other" := VStr "x" ]}) as ->.
  { cbn in Eown. by injection Eown as <-. }
  exists h', r. split; [exact E|].
  split_and!; rewrite Hall; reflexivity.
Defined.
